(** * TechNova Digital Assistant: the query handler of [main.py]

    A shallow embedding of [execute_query] and of the rule table
    [FUNCTION_RULES] it scans, with the parts of the Python runtime the
    handler relies on: [re.Pattern.match] for the pattern fragment the table
    is written in, the built-ins [int] and [str] used as coercions, the
    insertion-ordered [dict], and [json.dumps].

    A query is a [string]: a sequence of the code points 0..255.  In that
    range the class [\d] is exactly the ten characters 0-9, and [.] is every
    character but the line feed. *)

From Stdlib Require Import String Ascii List ZArith Lia Bool Arith PeanoNat.
From Stdlib Require Import DecimalString.
From Stdlib Require Import Permutation.
From Stdlib Require DecimalFacts DecimalPos DecimalZ Nnat.
Import ListNotations.

Local Open Scope list_scope.
Local Open Scope string_scope.

(** ** Characters and slices *)

Definition LF : ascii := "010"%char.
Definition DQUOTE : ascii := "034"%char.
Definition BACKSLASH : ascii := "092"%char.

Definition ord (c : ascii) : nat := nat_of_ascii c.

(** The ten decimal digits: the only code points below 256 of category Nd. *)
Definition is_digit (c : ascii) : bool :=
  (48 <=? ord c)%nat && (ord c <=? 57)%nat.

(** [s[:n]] *)
Fixpoint take (n : nat) (s : string) : string :=
  match n, s with
  | S n', String c s' => String c (take n' s')
  | _, _ => EmptyString
  end.

(** [s[n:]] *)
Fixpoint drop (n : nat) (s : string) : string :=
  match n, s with
  | S n', String _ s' => drop n' s'
  | _, _ => s
  end.

(** ** Patterns

    The syntax of the five patterns of the table: literal characters
    (escaped or not), the class [\d], the dot, bracketed sets of literals
    and [\d], each of them alone or under a greedy quantifier
    ([+], [*], [?], [{n}]), and capturing groups that are not nested.  A
    group may be optional (a [?] after it): a table other than the one of
    the source can then hold a group that takes no part in a match. *)
Module Re.

Inductive setitem : Type :=
| SChar (c : ascii)
| SDigit.

Inductive cclass : Type :=
| CChar (c : ascii)
| CDigit
| CAny
| CSet (items : list setitem).

Inductive atom : Type :=
| One (c : cclass)
| Rep (c : cclass) (lo : nat) (hi : option nat).

Inductive node : Type :=
| Plain (a : atom)
| Group (body : list atom)
| OptGroup (body : list atom).

Definition regex : Type := list node.

Definition plus (c : cclass) : atom := Rep c 1 None.
Definition star (c : cclass) : atom := Rep c 0 None.
Definition exactly (n : nat) (c : cclass) : atom := Rep c n (Some n).

(** A run of literal characters. *)
Fixpoint lit (s : string) : regex :=
  match s with
  | EmptyString => []
  | String c s' => Plain (One (CChar c)) :: lit s'
  end.

(** *** [re.compile]

    The pattern text is cut into tokens, and the tokens are grouped.  A
    pattern that uses anything outside the syntax above has no translation
    ([None]). *)

Inductive token : Type :=
| TClass (c : cclass)
| TQuant (lo : nat) (hi : option nat)
| TOpen
| TClose.

Inductive lexstate : Type :=
| Normal
| Escaped
| InSet (items : list setitem)
| InSetEscaped (items : list setitem)
| InBrace (n : option nat).

Definition is_alnum (c : ascii) : bool :=
  let n := ord c in
  is_digit c || ((65 <=? n) && (n <=? 90) || (97 <=? n) && (n <=? 122))%nat.

(** An escaped punctuation character stands for itself. *)
Definition is_escapable (c : ascii) : bool :=
  ((33 <=? ord c) && (ord c <=? 126))%nat && negb (is_alnum c).

Definition is_special (c : ascii) : bool :=
  existsb (Ascii.eqb c)
          ["|"; "^"; "$"; "]"; "}"]%char.

Fixpoint lex (s : string) (st : lexstate) : option (list token) :=
  match s with
  | EmptyString =>
      match st with Normal => Some [] | _ => None end
  | String c s' =>
      let emit (t : token) := option_map (cons t) (lex s' Normal) in
      match st with
      | Normal =>
          if Ascii.eqb c BACKSLASH then lex s' Escaped
          else if Ascii.eqb c "[" then lex s' (InSet [])
          else if Ascii.eqb c "{" then lex s' (InBrace None)
          else if Ascii.eqb c "(" then emit TOpen
          else if Ascii.eqb c ")" then emit TClose
          else if Ascii.eqb c "." then emit (TClass CAny)
          else if Ascii.eqb c "+" then emit (TQuant 1 None)
          else if Ascii.eqb c "*" then emit (TQuant 0 None)
          else if Ascii.eqb c "?" then emit (TQuant 0 (Some 1))
          else if is_special c then None
          else emit (TClass (CChar c))
      | Escaped =>
          if Ascii.eqb c "d" then emit (TClass CDigit)
          else if is_escapable c then emit (TClass (CChar c))
          else None
      | InSet items =>
          if Ascii.eqb c BACKSLASH then lex s' (InSetEscaped items)
          else if Ascii.eqb c "]"
               then match items with
                    | [] => None
                    | _ => emit (TClass (CSet items))
                    end
               else if existsb (Ascii.eqb c) ["-"; "^"; "["]%char then None
                    else lex s' (InSet (items ++ [SChar c])%list)
      | InSetEscaped items =>
          if Ascii.eqb c "d" then lex s' (InSet (items ++ [SDigit])%list)
          else if is_escapable c then lex s' (InSet (items ++ [SChar c])%list)
          else None
      | InBrace n =>
          if is_digit c
          then lex s' (InBrace (Some (10 * match n with Some m => m | None => 0 end
                                      + (ord c - 48))))
          else if Ascii.eqb c "}"
               then match n with
                    | Some m => emit (TQuant m (Some m))
                    | None => None
                    end
               else None
      end
  end.

(** [group] holds the atoms of the group that is open, if one is. *)
Fixpoint parse (ts : list token) (group : option (list atom)) : option regex :=
  let put (a : atom) (ts' : list token) :=
    match group with
    | Some body => parse ts' (Some (body ++ [a])%list)
    | None => option_map (cons (Plain a)) (parse ts' None)
    end in
  match ts with
  | [] => match group with None => Some [] | Some _ => None end
  | TClass c :: TQuant lo hi :: ts' => put (Rep c lo hi) ts'
  | TClass c :: ts' => put (One c) ts'
  | TOpen :: ts' =>
      match group with None => parse ts' (Some []) | Some _ => None end
  | TClose :: ts' =>
      match group with
      | Some body =>
          match ts' with
          | TQuant 0 (Some 1) :: ts'' =>
              option_map (cons (OptGroup body)) (parse ts'' None)
          | _ => option_map (cons (Group body)) (parse ts' None)
          end
      | None => None
      end
  | TQuant _ _ :: _ => None
  end.

Definition compile (source : string) : option regex :=
  match lex source Normal with
  | Some ts => parse ts None
  | None => None
  end.

Definition in_item (i : setitem) (x : ascii) : bool :=
  match i with
  | SChar c => Ascii.eqb c x
  | SDigit => is_digit x
  end.

Definition in_class (c : cclass) (x : ascii) : bool :=
  match c with
  | CChar c' => Ascii.eqb c' x
  | CDigit => is_digit x
  | CAny => negb (Ascii.eqb x LF)
  | CSet items => existsb (fun i => in_item i x) items
  end.

(** How many leading characters of [s] are in the class, at most [hi]. *)
Fixpoint count (c : cclass) (hi : option nat) (s : string) : nat :=
  match s with
  | EmptyString => 0
  | String x s' =>
      match hi with
      | Some 0 => 0
      | _ => if in_class c x
             then S (count c (option_map pred hi) s')
             else 0
      end
  end.

Section Backtracking.
Context {A : Type}.

(** A greedy repetition of a one-character class: the longest run first,
    then one character is given back at a time, down to [lo], until the
    rest of the pattern succeeds. *)
Fixpoint give_back (n lo : nat) (s : string)
         (k : string -> string -> option A) : option A :=
  if (n <? lo)%nat then None
  else match k (take n s) (drop n s) with
       | Some r => Some r
       | None => match n with
                 | O => None
                 | S n' => give_back n' lo s k
                 end
       end.

(** The continuation receives the text the atom consumed and what is left. *)
Definition match_atom (a : atom) (s : string)
           (k : string -> string -> option A) : option A :=
  match a with
  | One c =>
      match s with
      | String x s' => if in_class c x then k (String x EmptyString) s' else None
      | EmptyString => None
      end
  | Rep c lo hi => give_back (count c hi s) lo s k
  end.

Fixpoint match_atoms (l : list atom) (s : string)
         (k : string -> string -> option A) : option A :=
  match l with
  | [] => k EmptyString s
  | a :: l' =>
      match_atom a s (fun c1 r1 =>
        match_atoms l' r1 (fun c2 r2 => k (c1 ++ c2) r2))
  end.

(** [groups] are the captures so far, in the order of the groups: the
    text a group matched, or [None] for an optional group that was left
    out.  An optional group is tried first; it is left out when the rest
    of the pattern cannot succeed with it. *)
Fixpoint match_nodes (p : regex) (s : string) (groups : list (option string))
         (k : list (option string) -> string -> option A) : option A :=
  match p with
  | [] => k groups s
  | Plain a :: p' => match_atom a s (fun _ r => match_nodes p' r groups k)
  | Group body :: p' =>
      match_atoms body s
        (fun c r => match_nodes p' r (groups ++ [Some c])%list k)
  | OptGroup body :: p' =>
      match match_atoms body s
              (fun c r => match_nodes p' r (groups ++ [Some c])%list k) with
      | Some res => Some res
      | None => match_nodes p' s (groups ++ [None])%list k
      end
  end.
End Backtracking.

(** [pattern.match(q)] followed by [.groups()]: the pattern is tried at
    offset 0 only and need not reach the end of [q]; [None] when there is
    no match.  A group of the tuple is the string it matched, or [None]
    when it took no part in the match. *)
Definition pattern_match (p : regex) (q : string)
  : option (list (option string)) :=
  match_nodes p q [] (fun groups _ => Some groups).

End Re.
Import Re.

(** ** Python values and the two coercions *)

Inductive pyobj : Type :=
| PyInt (n : Z)
| PyStr (s : string).

Inductive exn : Type :=
| ValueError
| IndexError
| TypeError.

(** The callables that occur in [arg_types]. *)
Inductive callable : Type :=
| py_int
| py_str.

(** White space for [int]: the ASCII characters for which [Py_ISSPACE]
    holds, and the two white-space code points of 128..255 (NEL and the
    no-break space), which [int] first turns into a space. *)
Definition is_space (c : ascii) : bool :=
  let n := ord c in
  ((9 <=? n) && (n <=? 13) || (n =? 32) || (n =? 133) || (n =? 160))%nat.

Definition UNDERSCORE : ascii := "_"%char.

Fixpoint lstrip (s : string) : string :=
  match s with
  | String c s' => if is_space c then lstrip s' else s
  | EmptyString => s
  end.

Definition all_space (s : string) : bool :=
  match lstrip s with EmptyString => true | _ => false end.

(** The digits and single underscores of an integer literal: scans [s]
    from a digit, returns the value, the number of digits and what is left.
    [prev_us] tells whether the previous character was an underscore. *)
Fixpoint scan_digits (s : string) (acc : Z) (digits : nat) (prev_us : bool)
  : option (Z * nat * string) :=
  match s with
  | String c s' =>
      if is_digit c
      then scan_digits s' (acc * 10 + Z.of_nat (ord c - 48)) (S digits) false
      else if Ascii.eqb c UNDERSCORE
           then if prev_us then None
                else scan_digits s' acc digits true
           else if prev_us then None else Some (acc, digits, s)
  | EmptyString => if prev_us then None else Some (acc, digits, s)
  end.

(** [sys.int_info]: a string of more than [str_digits_check_threshold]
    digits is checked against the limit on integer string conversion,
    [default_max_str_digits] unless the interpreter was started with
    another one, and [int] raises [ValueError] beyond it. *)
Definition str_digits_check_threshold : nat := 640.
Definition default_max_str_digits : nat := 4300.

Definition too_many_digits (digits : nat) : bool :=
  (str_digits_check_threshold <? digits)%nat
  && (0 <? default_max_str_digits)%nat
  && (default_max_str_digits <? digits)%nat.

(** [int(s)] for a string: optional white space, an optional sign, decimal
    digits with single underscores between them, optional white space. *)
Definition int_of_str (s : string) : pyobj + exn :=
  let s1 := lstrip s in
  let '(sign, s2) :=
    match s1 with
    | String c r =>
        if Ascii.eqb c "+" then (1%Z, r)
        else if Ascii.eqb c "-" then ((-1)%Z, r)
        else (1%Z, s1)
    | EmptyString => (1%Z, s1)
    end in
  match s2 with
  | String c _ =>
      if is_digit c
      then match scan_digits s2 0 0 false with
           | Some (v, digits, rest) =>
               if all_space rest
               then if too_many_digits digits then inr ValueError
                    else inl (PyInt (sign * v))
               else inr ValueError
           | None => inr ValueError
           end
      else inr ValueError
  | EmptyString => inr ValueError
  end.

(** [arg_types[i](v)], for [v] a string or [None]: [int(None)] raises
    [TypeError], and [str(None)] is the string "None". *)
Definition call (f : callable) (v : option string) : pyobj + exn :=
  match f, v with
  | py_int, Some s => int_of_str s
  | py_int, None => inr TypeError
  | py_str, Some s => inl (PyStr s)
  | py_str, None => inl (PyStr "None")
  end.

(** ** The insertion-ordered dictionary [arguments] *)

Definition dict : Type := list (string * pyobj).

(** [d[key] = value]: a key that is already there keeps its place and takes
    the new value; a new key goes to the end. *)
Fixpoint setitem (d : dict) (key : string) (value : pyobj) : dict :=
  match d with
  | [] => [(key, value)]
  | (k, v) :: d' =>
      if String.eqb k key then (k, value) :: d'
      else (k, v) :: setitem d' key value
  end.

Definition keys (d : dict) : list string := map fst d.

Fixpoint getitem (d : dict) (key : string) : option pyobj :=
  match d with
  | [] => None
  | (k, v) :: d' => if String.eqb k key then Some v else getitem d' key
  end.

(** ** [json.dumps] with its default settings *)
Module Json.

Definition hex_digit (n : nat) : ascii :=
  if (n <? 10)%nat then ascii_of_nat (48 + n) else ascii_of_nat (87 + n).

(** [ESCAPE_DCT] and the [\uXXXX] form of the other characters outside
    the printable ASCII range (lower-case hexadecimal digits). *)
Definition escape_char (c : ascii) : string :=
  let n := ord c in
  if Ascii.eqb c DQUOTE then String BACKSLASH (String DQUOTE EmptyString)
  else if Ascii.eqb c BACKSLASH then String BACKSLASH (String BACKSLASH EmptyString)
  else if (n =? 8)%nat then String BACKSLASH "b"
  else if (n =? 12)%nat then String BACKSLASH "f"
  else if (n =? 10)%nat then String BACKSLASH "n"
  else if (n =? 13)%nat then String BACKSLASH "r"
  else if (n =? 9)%nat then String BACKSLASH "t"
  else if ((32 <=? n) && (n <=? 126))%nat then String c EmptyString
  else String BACKSLASH
         ("u00" ++ String (hex_digit (n / 16))
                     (String (hex_digit (n mod 16)) EmptyString)).

Fixpoint escape (s : string) : string :=
  match s with
  | EmptyString => EmptyString
  | String c s' => escape_char c ++ escape s'
  end.

(** [py_encode_basestring_ascii] *)
Definition encode_string (s : string) : string :=
  String DQUOTE (escape s ++ String DQUOTE EmptyString).

Definition encode_int (n : Z) : string :=
  NilZero.string_of_int (Z.to_int n).

Definition encode (v : pyobj) : string :=
  match v with
  | PyInt n => encode_int n
  | PyStr s => encode_string s
  end.

Definition encode_item (kv : string * pyobj) : string :=
  encode_string (fst kv) ++ ": " ++ encode (snd kv).

Fixpoint join (sep : string) (l : list string) : string :=
  match l with
  | [] => EmptyString
  | [x] => x
  | x :: l' => x ++ sep ++ join sep l'
  end.

(** An object is written in the order of the dictionary, the items
    separated by a comma and a space. *)
Definition dumps (d : dict) : string :=
  "{" ++ join ", " (map encode_item d) ++ "}".

End Json.

(** ** The rule table *)

Definition rule : Type := regex * string * list string * list callable.

(** [re.compile(r"...")] when the table is built: a pattern without a
    translation stops the definition, as a pattern [re] rejects stops the
    module from loading. *)
Ltac re_compile source :=
  let r := eval vm_compute in (Re.compile source) in
  lazymatch r with
  | Some ?p => exact p
  end.

Definition GET_TICKET_STATUS : rule :=
  ( ltac:(re_compile "What is the status of ticket (\d+)\?"),
    "get_ticket_status",
    ["ticket_id"],
    [py_int] ).

Definition SCHEDULE_MEETING : rule :=
  ( ltac:(re_compile
            "Schedule a meeting on ([\d\-]+) at ([\d:]+) in (.*)\."),
    "schedule_meeting",
    ["date"; "time"; "meeting_room"],
    [py_str; py_str; py_str] ).

Definition GET_EXPENSE_BALANCE : rule :=
  ( ltac:(re_compile "Show my expense balance for employee (\d+)\."),
    "get_expense_balance",
    ["employee_id"],
    [py_int] ).

Definition CALCULATE_PERFORMANCE_BONUS : rule :=
  ( ltac:(re_compile
            "Calculate performance bonus for employee (\d+) for (\d{4})\."),
    "calculate_performance_bonus",
    ["employee_id"; "current_year"],
    [py_int; py_int] ).

Definition REPORT_OFFICE_ISSUE : rule :=
  ( ltac:(re_compile
            "Report office issue (\d+) for the (.*) department\."),
    "report_office_issue",
    ["issue_code"; "department"],
    [py_int; py_str] ).

Definition FUNCTION_RULES : list rule :=
  [ GET_TICKET_STATUS;
    SCHEDULE_MEETING;
    GET_EXPENSE_BALANCE;
    CALCULATE_PERFORMANCE_BONUS;
    REPORT_OFFICE_ISSUE ].

Definition rule_pattern (r : rule) : regex := fst (fst (fst r)).
Definition rule_arg_names (r : rule) : list string := snd (fst r).
Definition rule_arg_types (r : rule) : list callable := snd r.

(** ** The endpoint *)

(** What a request ends with: the returned body, an [HTTPException] the
    handler raised, or another exception that left the handler. *)
Inductive response : Type :=
| Return (body : dict)
| HTTPException (status_code : Z) (detail : string)
| Uncaught (e : exn).

(** The body of the [try]: [for i, name in enumerate(arg_names)], from
    index [i] on.  [arg_types[i]] is looked up before
    [extracted_values[i]], and either subscript raises [IndexError] when it
    is out of range. *)
Fixpoint fill_arguments (i : nat) (names : list string)
         (arg_types : list callable)
         (extracted_values : list (option string))
         (arguments : dict) : dict + exn :=
  match names with
  | [] => inl arguments
  | name :: names' =>
      match nth_error arg_types i with
      | None => inr IndexError
      | Some f =>
          match nth_error extracted_values i with
          | None => inr IndexError
          | Some v =>
              match call f v with
              | inr e => inr e
              | inl x =>
                  fill_arguments (S i) names' arg_types extracted_values
                                 (setitem arguments name x)
              end
          end
      end
  end.

(** What the handler does once [pattern.match(q)] has succeeded.  The
    [except] clause names [ValueError] and [IndexError]: any other
    exception of the loop leaves the handler. *)
Definition on_match (func_name : string) (arg_names : list string)
           (arg_types : list callable)
           (extracted_values : list (option string))
  : response :=
  match fill_arguments 0 arg_names arg_types extracted_values [] with
  | inr ValueError | inr IndexError =>
      HTTPException 400 "Parameter type mismatch"
  | inr TypeError => Uncaught TypeError
  | inl arguments =>
      Return [("name", PyStr func_name);
              ("arguments", PyStr (Json.dumps arguments))]
  end.

(** The [for] loop over the table. *)
Fixpoint scan (rules : list rule) (q : string) : response :=
  match rules with
  | [] => HTTPException 404 "No matching function found for the query"
  | (pattern, func_name, arg_names, arg_types) :: rules' =>
      match pattern_match pattern q with
      | Some extracted_values =>
          on_match func_name arg_names arg_types extracted_values
      | None => scan rules' q
      end
  end.

(** [execute_query] over a given table; [q] is [None] when the request has
    no parameter [q]. *)
Definition execute_query_with (rules : list rule) (q : option string)
  : response :=
  match q with
  | None => HTTPException 400 "Missing query parameter 'q'"
  | Some q => scan rules q
  end.

Definition execute_query : option string -> response :=
  execute_query_with FUNCTION_RULES.

(** The status line the framework sends: 200 for a returned body, the
    code of an [HTTPException], and 500 for an exception that left the
    handler. *)
Definition status (r : response) : Z :=
  match r with
  | Return _ => 200
  | HTTPException code _ => code
  | Uncaught _ => 500
  end.

(** ** Vocabulary of the statements *)

Definition DIGITS_DASH : cclass := CSet [SDigit; SChar "-"].
Definition DIGITS_COLON : cclass := CSet [SDigit; SChar ":"].

(** Every character of [s] is in the class. *)
Fixpoint all_in (c : cclass) (s : string) : bool :=
  match s with
  | EmptyString => true
  | String x s' => in_class c x && all_in c s'
  end.

(** [s] is empty or starts with a character outside the class. *)
Definition stops (c : cclass) (s : string) : bool :=
  match s with
  | EmptyString => true
  | String x _ => negb (in_class c x)
  end.

(** The text up to the first line feed. *)
Fixpoint first_line (s : string) : string :=
  match s with
  | EmptyString => EmptyString
  | String x s' => if Ascii.eqb x LF then EmptyString else String x (first_line s')
  end.

(** [s.startswith(w)] *)
Fixpoint starts_with (w s : string) : bool :=
  match w with
  | EmptyString => true
  | String a w' =>
      match s with
      | EmptyString => false
      | String b s' => Ascii.eqb a b && starts_with w' s'
      end
  end.

(** [w in s] *)
Fixpoint occurs (w s : string) : bool :=
  starts_with w s ||
  match s with
  | EmptyString => false
  | String _ s' => occurs w s'
  end.

(** [c * n] *)
Fixpoint replicate (n : nat) (c : ascii) : string :=
  match n with
  | O => EmptyString
  | S n' => String c (replicate n' c)
  end.

(** [s] between double quotes. *)
Definition quoted (s : string) : string :=
  String DQUOTE (s ++ String DQUOTE EmptyString).

(** The names of a list without their later repetitions. *)
Fixpoint first_occurrences (seen names : list string) : list string :=
  match names with
  | [] => []
  | n :: names' =>
      if existsb (String.eqb n) seen then first_occurrences seen names'
      else n :: first_occurrences (seen ++ [n])%list names'
  end.

(** What an atom can consume, and what a group can capture. *)
Definition atom_accepts (a : atom) (c : string) : Prop :=
  match a with
  | One cls => exists x, c = String x EmptyString /\ in_class cls x = true
  | Rep cls lo hi =>
      all_in cls c = true /\ lo <= String.length c
      /\ match hi with Some h => String.length c <= h | None => True end
  end.

Fixpoint atoms_accept (l : list atom) (c : string) : Prop :=
  match l with
  | [] => c = EmptyString
  | a :: l' =>
      exists c1 c2, c = c1 ++ c2 /\ atom_accepts a c1 /\ atoms_accept l' c2
  end.

Fixpoint captures_accept (p : regex) (caps : list (option string)) : Prop :=
  match p with
  | [] => caps = []
  | Plain _ :: p' => captures_accept p' caps
  | Group body :: p' =>
      exists c caps', caps = Some c :: caps' /\ atoms_accept body c
                      /\ captures_accept p' caps'
  | OptGroup body :: p' =>
      exists o caps',
        caps = o :: caps'
        /\ match o with Some c => atoms_accept body c | None => True end
        /\ captures_accept p' caps'
  end.

(** The number a run of decimal digits denotes, after the digits [acc]. *)
Fixpoint decimal_value (s : string) (acc : Z) : Z :=
  match s with
  | EmptyString => acc
  | String c s' => decimal_value s' (acc * 10 + Z.of_nat (ord c - 48))
  end.

(** The text a pattern can consume from the start of a query, with what
    its groups capture on the way. *)
Fixpoint nodes_accept (p : regex) (c : string) (caps : list (option string))
  : Prop :=
  match p with
  | [] => c = EmptyString /\ caps = []
  | Plain a :: p' =>
      exists c1 c2, c = c1 ++ c2 /\ atom_accepts a c1 /\ nodes_accept p' c2 caps
  | Group body :: p' =>
      exists c1 c2 caps',
        c = c1 ++ c2 /\ caps = Some c1 :: caps'
        /\ atoms_accept body c1 /\ nodes_accept p' c2 caps'
  | OptGroup body :: p' =>
      (exists c1 c2 caps',
          c = c1 ++ c2 /\ caps = Some c1 :: caps'
          /\ atoms_accept body c1 /\ nodes_accept p' c2 caps')
      \/ (exists caps', caps = None :: caps' /\ nodes_accept p' c caps')
  end.

(** A run of digits without its leading zeros, one zero standing for a
    run of zeros. *)
Fixpoint strip_zeros (s : string) : string :=
  match s with
  | String c s' => if Ascii.eqb c "0" then strip_zeros s' else s
  | EmptyString => EmptyString
  end.

Definition canonical (s : string) : string :=
  match strip_zeros s with
  | EmptyString => "0"
  | s' => s'
  end.

(** Every character of [s] is one of the characters of [allowed]. *)
Fixpoint only_chars (allowed s : string) : bool :=
  match s with
  | EmptyString => true
  | String c s' =>
      existsb (Ascii.eqb c) (list_ascii_of_string allowed)
      && only_chars allowed s'
  end.

(** Every character of [s] is a printable ASCII character. *)
Definition printable (c : ascii) : bool :=
  (32 <=? ord c)%nat && (ord c <=? 126)%nat.

Fixpoint all_printable (s : string) : bool :=
  match s with
  | EmptyString => true
  | String c s' => printable c && all_printable s'
  end.

(** The characters that stand for themselves in a pattern. *)
Definition is_plain (c : ascii) : bool :=
  negb (existsb (Ascii.eqb c)
                [BACKSLASH; "["; "{"; "("; ")"; "."; "+"; "*";
                 "?"; "|"; "^"; "$"; "]"; "}"]%char).

Fixpoint all_plain (s : string) : bool :=
  match s with
  | EmptyString => true
  | String c s' => is_plain c && all_plain s'
  end.



(** ** The five patterns, as [re.compile] reads them *)

Lemma GET_TICKET_STATUS_pattern :
  rule_pattern GET_TICKET_STATUS
  = (lit "What is the status of ticket "
       ++ Group [plus CDigit] :: lit "?")%list.
Proof. reflexivity. Qed.

Lemma SCHEDULE_MEETING_pattern :
  rule_pattern SCHEDULE_MEETING
  = (lit "Schedule a meeting on " ++ Group [plus DIGITS_DASH]
       :: lit " at " ++ Group [plus DIGITS_COLON]
       :: lit " in " ++ Group [star CAny] :: lit ".")%list.
Proof. reflexivity. Qed.

Lemma GET_EXPENSE_BALANCE_pattern :
  rule_pattern GET_EXPENSE_BALANCE
  = (lit "Show my expense balance for employee "
       ++ Group [plus CDigit] :: lit ".")%list.
Proof. reflexivity. Qed.

Lemma CALCULATE_PERFORMANCE_BONUS_pattern :
  rule_pattern CALCULATE_PERFORMANCE_BONUS
  = (lit "Calculate performance bonus for employee "
       ++ Group [plus CDigit] :: lit " for "
       ++ Group [exactly 4 CDigit] :: lit ".")%list.
Proof. reflexivity. Qed.

Lemma REPORT_OFFICE_ISSUE_pattern :
  rule_pattern REPORT_OFFICE_ISSUE
  = (lit "Report office issue " ++ Group [plus CDigit]
       :: lit " for the " ++ Group [star CAny]
       :: lit " department.")%list.
Proof. reflexivity. Qed.

(** ** Strings *)

Lemma append_nil_r (s : string) : s ++ EmptyString = s.
Proof. induction s as [|c s IH]; simpl; [reflexivity | now rewrite IH]. Qed.

Lemma append_assoc (a b c : string) : (a ++ b) ++ c = a ++ (b ++ c).
Proof. induction a as [|x a IH]; simpl; [reflexivity | now rewrite IH]. Qed.

Lemma length_append (a b : string) :
  String.length (a ++ b) = String.length a + String.length b.
Proof. induction a as [|x a IH]; simpl; [reflexivity | now rewrite IH]. Qed.

Lemma take_length_append (a b : string) : take (String.length a) (a ++ b) = a.
Proof. induction a as [|x a IH]; simpl; [now destruct b | now rewrite IH]. Qed.

Lemma drop_length_append (a b : string) : drop (String.length a) (a ++ b) = b.
Proof. induction a as [|x a IH]; simpl; [now destruct b | exact IH]. Qed.

Lemma take_append_le (n : nat) (a b : string) :
  n <= String.length a -> take n (a ++ b) = take n a.
Proof.
  revert a; induction n as [|n IH]; intros [|x a] H; simpl in *;
    try reflexivity; try lia.
  now rewrite IH by lia.
Qed.

Lemma drop_append_le (n : nat) (a b : string) :
  n <= String.length a -> drop n (a ++ b) = drop n a ++ b.
Proof.
  revert a; induction n as [|n IH]; intros [|x a] H; simpl in *;
    try reflexivity; try lia.
  now apply IH; lia.
Qed.

Lemma take_drop (n : nat) (s : string) : take n s ++ drop n s = s.
Proof.
  revert s; induction n as [|n IH]; intros [|x s]; simpl; try reflexivity.
  now rewrite IH.
Qed.

(** ** The loop over the table *)

Lemma scan_skip (pre rules : list rule) (q : string) :
  (forall r, In r pre -> pattern_match (rule_pattern r) q = None) ->
  scan (pre ++ rules) q = scan rules q.
Proof.
  induction pre as [|[[[p f] ns] ts] pre IH]; intros H; simpl; [reflexivity|].
  pose proof (H (p, f, ns, ts) (or_introl eq_refl)) as Hp.
  unfold rule_pattern in Hp; simpl in Hp. rewrite Hp.
  apply IH; intros r Hr; apply H; now right.
Qed.

Lemma scan_first_match (pre post : list rule) (pattern : regex)
      (func_name : string) (arg_names : list string)
      (arg_types : list callable) (q : string) (groups : list (option string)) :
  (forall r, In r pre -> pattern_match (rule_pattern r) q = None) ->
  pattern_match pattern q = Some groups ->
  scan (pre ++ (pattern, func_name, arg_names, arg_types) :: post) q
  = on_match func_name arg_names arg_types groups.
Proof.
  intros Hpre Hm. rewrite scan_skip by exact Hpre. simpl. now rewrite Hm.
Qed.

Lemma scan_no_match (rules : list rule) (q : string) :
  (forall r, In r rules -> pattern_match (rule_pattern r) q = None) ->
  scan rules q = HTTPException 404 "No matching function found for the query".
Proof.
  intros H. rewrite <- (app_nil_r rules). now rewrite scan_skip.
Qed.

(** What [scan] answers comes from the first rule that matches. *)
Lemma scan_inv (rules : list rule) (q : string) :
  (scan rules q = HTTPException 404 "No matching function found for the query"
   /\ forall r, In r rules -> pattern_match (rule_pattern r) q = None)
  \/ exists pre post pattern func_name arg_names arg_types groups,
       rules = (pre ++ (pattern, func_name, arg_names, arg_types) :: post)%list
       /\ (forall r, In r pre -> pattern_match (rule_pattern r) q = None)
       /\ pattern_match pattern q = Some groups
       /\ scan rules q = on_match func_name arg_names arg_types groups.
Proof.
  induction rules as [|[[[p f] ns] ts] rules IH].
  - left; split; [reflexivity | intros r []].
  - simpl. destruct (pattern_match p q) as [g|] eqn:Hp.
    + right. exists [], rules, p, f, ns, ts, g. repeat split; auto.
      intros r [].
    + destruct IH as [[H404 Hnone] | (pre & post & p' & f' & ns' & ts' & g & E & Hpre & Hm & Hs)].
      * left; split; [exact H404|]. intros r [<-|Hr]; [exact Hp | now apply Hnone].
      * right. exists ((p, f, ns, ts) :: pre), post, p', f', ns', ts', g.
        repeat split; auto.
        -- now rewrite E.
        -- intros r [<-|Hr]; [exact Hp | now apply Hpre].
Qed.

(** ** The matcher *)

Section GiveBack.
Context {A : Type}.
Implicit Types (k : string -> string -> option A) (s : string).

Lemma give_back_eq n lo s k :
  give_back n lo s k =
  if (n <? lo)%nat then None
  else match k (take n s) (drop n s) with
       | Some r => Some r
       | None => match n with
                 | O => None
                 | S n' => give_back n' lo s k
                 end
       end.
Proof. destruct n; reflexivity. Qed.

Lemma give_back_hit n lo s k res :
  lo <= n -> k (take n s) (drop n s) = Some res ->
  give_back n lo s k = Some res.
Proof.
  intros Hlo Hk. rewrite give_back_eq, Hk.
  now destruct (Nat.ltb_spec n lo) as [?|_]; [lia|].
Qed.

Lemma give_back_miss n lo s k :
  k (take (S n) s) (drop (S n) s) = None -> lo <= S n ->
  give_back (S n) lo s k = give_back n lo s k.
Proof.
  intros Hk Hlo. rewrite give_back_eq, Hk.
  now destruct (Nat.ltb_spec (S n) lo) as [?|_]; [lia|].
Qed.

(** The split that wins is the longest one the continuation accepts. *)
Lemma give_back_last n m lo s k res :
  lo <= m <= n ->
  (forall j, m < j <= n -> k (take j s) (drop j s) = None) ->
  k (take m s) (drop m s) = Some res ->
  give_back n lo s k = Some res.
Proof.
  induction n as [|n IH]; intros Hm Hnone Hk.
  - assert (m = 0) by lia; subst. now apply give_back_hit.
  - destruct (Nat.eq_dec m (S n)) as [->|Hne].
    + now apply give_back_hit.
    + rewrite give_back_miss by (try apply Hnone; lia).
      apply IH; [lia | intros j Hj; apply Hnone; lia | exact Hk].
Qed.

Lemma give_back_some n lo s k res :
  give_back n lo s k = Some res ->
  exists m, lo <= m <= n /\ k (take m s) (drop m s) = Some res.
Proof.
  induction n as [|n IH]; rewrite give_back_eq.
  - destruct (Nat.ltb_spec0 0 lo) as [?|Hlo]; [discriminate|].
    destruct (k (take 0 s) (drop 0 s)) eqn:Hk; [|discriminate].
    intros [= <-]. exists 0. split; [lia | exact Hk].
  - destruct (Nat.ltb_spec0 (S n) lo) as [?|Hlo]; [discriminate|].
    destruct (k (take (S n) s) (drop (S n) s)) eqn:Hk.
    + intros [= <-]. exists (S n). split; [lia | exact Hk].
    + intros H. destruct (IH H) as (m & Hm & Hkm).
      exists m. split; [lia | exact Hkm].
Qed.

Lemma give_back_is_some n m lo s k res :
  lo <= m <= n -> k (take m s) (drop m s) = Some res ->
  exists res', give_back n lo s k = Some res'.
Proof.
  induction n as [|n IH]; intros Hm Hk.
  - assert (m = 0) by lia; subst. exists res. now apply give_back_hit.
  - destruct (Nat.eq_dec m (S n)) as [->|Hne].
    + exists res. now apply give_back_hit.
    + rewrite give_back_eq.
      destruct (Nat.ltb_spec0 (S n) lo) as [?|_]; [lia|].
      destruct (k (take (S n) s) (drop (S n) s)) as [r|]; [now exists r|].
      apply IH; [lia | exact Hk].
Qed.
End GiveBack.

Lemma count_le_length c hi s : count c hi s <= String.length s.
Proof.
  revert hi; induction s as [|x s IH]; intros hi; simpl; [lia|].
  destruct hi as [[|h]|]; try lia;
    destruct (in_class c x); try lia; simpl;
    match goal with |- S (count c ?o s) <= _ => specialize (IH o) end; lia.
Qed.

Lemma count_le_hi c h s : count c (Some h) s <= h.
Proof.
  revert h; induction s as [|x s IH]; intros h; simpl; [lia|].
  destruct h as [|h]; [lia|]. destruct (in_class c x); [|lia].
  simpl. specialize (IH h). lia.
Qed.

Lemma all_in_take c n s hi :
  n <= count c hi s -> all_in c (take n s) = true.
Proof.
  revert s hi; induction n as [|n IH]; intros s hi H; [now destruct s|].
  destruct s as [|x s]; simpl in *; [lia|].
  destruct hi as [[|h]|]; try lia;
    destruct (in_class c x) eqn:Hx; try lia; simpl;
    (eapply IH; apply le_S_n; exact H).
Qed.

Lemma length_take n s : n <= String.length s -> String.length (take n s) = n.
Proof.
  revert s; induction n as [|n IH]; intros [|x s] H; simpl in *; try lia.
  rewrite IH; lia.
Qed.

Lemma count_append_ge c hi s t : count c hi s <= count c hi (s ++ t).
Proof.
  revert hi; induction s as [|x s IH]; intros hi; simpl; [lia|].
  destruct hi as [[|h]|]; try lia;
    destruct (in_class c x); try lia; simpl;
    match goal with |- S (count c ?o s) <= _ => specialize (IH o) end; lia.
Qed.

Lemma count_exact c d r :
  all_in c d = true -> stops c r = true ->
  count c None (d ++ r) = String.length d.
Proof.
  intros Hd Hr. induction d as [|x d IH]; simpl in *.
  - destruct r as [|y r]; [reflexivity|]. simpl in *.
    now destruct (in_class c y).
  - apply andb_prop in Hd as [Hx Hd]. rewrite Hx. now rewrite IH.
Qed.

(** *** What a match consumed and captured *)

Section Sound.
Context {A : Type}.

Lemma match_atom_sound a s (k : string -> string -> option A) res :
  match_atom a s k = Some res ->
  exists c r, s = c ++ r /\ atom_accepts a c /\ k c r = Some res.
Proof.
  destruct a as [cls|cls lo hi]; simpl.
  - destruct s as [|x s]; [discriminate|].
    destruct (in_class cls x) eqn:Hx; [|discriminate].
    intros Hk. exists (String x EmptyString), s.
    repeat split; [|exact Hk]. now exists x.
  - intros H. apply give_back_some in H as (m & Hm & Hk).
    exists (take m s), (drop m s).
    assert (Hlen : String.length (take m s) = m).
    { apply length_take. pose proof (count_le_length cls hi s). lia. }
    repeat split; try exact Hk.
    + now rewrite take_drop.
    + now apply all_in_take with (hi := hi).
    + lia.
    + destruct hi as [h|]; [|exact I].
      pose proof (count_le_hi cls h s). lia.
Qed.

Lemma match_atoms_sound l s (k : string -> string -> option A) res :
  match_atoms l s k = Some res ->
  exists c r, s = c ++ r /\ atoms_accept l c /\ k c r = Some res.
Proof.
  revert s k; induction l as [|a l IH]; intros s k; simpl.
  - intros Hk. now exists EmptyString, s.
  - intros H. apply match_atom_sound in H as (c1 & r1 & -> & Ha & H).
    apply IH in H as (c2 & r2 & -> & Hl & Hk).
    exists (c1 ++ c2), r2. repeat split; [|now exists c1, c2|exact Hk].
    now rewrite append_assoc.
Qed.

Lemma match_nodes_sound p s groups
      (k : list (option string) -> string -> option A) res :
  match_nodes p s groups k = Some res ->
  exists caps c r,
    s = c ++ r /\ captures_accept p caps
    /\ k (groups ++ caps)%list r = Some res.
Proof.
  revert s groups; induction p as [|[a|body|body] p IH]; intros s groups;
    simpl.
  - intros Hk. exists [], EmptyString, s. now rewrite app_nil_r.
  - intros H. apply match_atom_sound in H as (c1 & r1 & -> & _ & H).
    apply IH in H as (caps & c2 & r2 & -> & Hp & Hk).
    exists caps, (c1 ++ c2), r2. now rewrite append_assoc.
  - intros H. apply match_atoms_sound in H as (c1 & r1 & -> & Hb & H).
    apply IH in H as (caps & c2 & r2 & -> & Hp & Hk).
    exists (Some c1 :: caps), (c1 ++ c2), r2. rewrite append_assoc.
    repeat split; [now exists c1, caps|].
    now rewrite <- app_assoc in Hk.
  - destruct (match_atoms body s _) as [res'|] eqn:Hbody.
    + intros [= ->].
      apply match_atoms_sound in Hbody as (c1 & r1 & -> & Hb & H).
      apply IH in H as (caps & c2 & r2 & -> & Hp & Hk).
      exists (Some c1 :: caps), (c1 ++ c2), r2. rewrite append_assoc.
      repeat split; [now exists (Some c1), caps|].
      now rewrite <- app_assoc in Hk.
    + intros H. apply IH in H as (caps & c2 & r2 & -> & Hp & Hk).
      exists (None :: caps), c2, r2.
      repeat split; [now exists None, caps|].
      now rewrite <- app_assoc in Hk.
Qed.
End Sound.

Lemma pattern_match_sound p q groups :
  pattern_match p q = Some groups ->
  captures_accept p groups
  /\ exists c r, q = c ++ r.
Proof.
  intros H. apply match_nodes_sound in H as (caps & c & r & -> & Hp & [= <-]).
  split; [exact Hp | now exists c, r].
Qed.

(** *** Text after the match *)

Section Extend.
Context {A B : Type}.

Lemma match_atom_extend a s t
      (k : string -> string -> option A)
      (k' : string -> string -> option B) res :
  (forall c r x, k c r = Some x -> exists y, k' c (r ++ t) = Some y) ->
  match_atom a s k = Some res ->
  exists res', match_atom a (s ++ t) k' = Some res'.
Proof.
  intros Hkk. destruct a as [cls|cls lo hi]; simpl.
  - destruct s as [|x s]; [discriminate|]. simpl.
    destruct (in_class cls x); [|discriminate]. apply Hkk.
  - intros H. apply give_back_some in H as (m & Hm & Hk).
    pose proof (count_le_length cls hi s) as Hlen.
    pose proof (count_append_ge cls hi s t) as Hge.
    apply Hkk in Hk as (y & Hk).
    apply give_back_is_some with (m := m) (res := y); [lia|].
    rewrite take_append_le, drop_append_le by lia. exact Hk.
Qed.

Lemma match_atoms_extend l s t
      (k : string -> string -> option A)
      (k' : string -> string -> option B) res :
  (forall c r x, k c r = Some x -> exists y, k' c (r ++ t) = Some y) ->
  match_atoms l s k = Some res ->
  exists res', match_atoms l (s ++ t) k' = Some res'.
Proof.
  revert s k k' res; induction l as [|a l IH]; intros s k k' res Hkk; simpl.
  - apply Hkk.
  - apply match_atom_extend. intros c r x. apply IH.
    intros c2 r2 x2. apply Hkk.
Qed.

Lemma match_nodes_extend p s t g
      (k : list (option string) -> string -> option A)
      (k' : list (option string) -> string -> option B) res :
  (forall c r x, k c r = Some x -> exists y, k' c (r ++ t) = Some y) ->
  match_nodes p s g k = Some res ->
  exists res', match_nodes p (s ++ t) g k' = Some res'.
Proof.
  revert s g res; induction p as [|[a|body|body] p IH]; intros s g res Hkk;
    simpl.
  - apply Hkk.
  - apply match_atom_extend. intros c r x. now apply IH.
  - apply match_atoms_extend. intros c r x. now apply IH.
  - destruct (match_atoms body s _) as [res1|] eqn:Hbody.
    + intros _.
      destruct (match_atoms_extend body s t _
                  (fun c r => match_nodes p r (g ++ [Some c])%list k')
                  res1 (fun c r x => IH r (g ++ [Some c])%list x Hkk) Hbody)
        as [y Hy].
      rewrite Hy. now exists y.
    + intros H. destruct (match_atoms body (s ++ t) _) as [y|];
        [now exists y | now apply IH with (res := res)].
Qed.
End Extend.

Lemma pattern_match_extend p q t groups :
  pattern_match p q = Some groups ->
  exists groups', pattern_match p (q ++ t) = Some groups'.
Proof.
  apply match_nodes_extend. intros c r x _. now exists c.
Qed.

(** *** Literal text and greedy groups *)

Lemma starts_with_append w s : starts_with w (w ++ s) = true.
Proof.
  induction w as [|x w IH]; simpl; [reflexivity|].
  now rewrite Ascii.eqb_refl.
Qed.

Section Steps.
Context {A : Type}.
Implicit Types (k : list (option string) -> string -> option A).

Lemma match_nodes_lit w p s g k :
  match_nodes (lit w ++ p)%list s g k =
  if starts_with w s then match_nodes p (drop (String.length w) s) g k else None.
Proof.
  revert s; induction w as [|x w IH]; intros s; simpl.
  - now destruct s.
  - destruct s as [|y s]; [reflexivity|].
    destruct (Ascii.eqb x y); [apply IH | reflexivity].
Qed.

Lemma match_nodes_lit_append w p s g k :
  match_nodes (lit w ++ p)%list (w ++ s) g k = match_nodes p s g k.
Proof.
  now rewrite match_nodes_lit, starts_with_append, drop_length_append.
Qed.

(** A group holding [c+] in front of text that leaves the class takes the
    whole run when the rest of the pattern succeeds after it. *)
Lemma match_nodes_plus_group cls p d r g k res :
  all_in cls d = true -> 1 <= String.length d -> stops cls r = true ->
  match_nodes p r (g ++ [Some d])%list k = Some res ->
  match_nodes (Group [plus cls] :: p) (d ++ r) g k = Some res.
Proof.
  intros Hd Hlen Hr Hk. simpl. rewrite (count_exact _ _ _ Hd Hr).
  apply give_back_hit; [exact Hlen|].
  now rewrite take_length_append, drop_length_append, append_nil_r.
Qed.

Lemma match_nodes_exactly_group cls n p d r g k res :
  all_in cls d = true -> String.length d = n ->
  match_nodes p r (g ++ [Some d])%list k = Some res ->
  match_nodes (Group [exactly n cls] :: p) (d ++ r) g k = Some res.
Proof.
  intros Hd Hlen Hk. simpl.
  assert (Hc : count cls (Some n) (d ++ r) = n).
  { subst n. clear Hk. revert r. induction d as [|x d IH]; intros r; simpl in *.
    - now destruct r.
    - apply andb_prop in Hd as [Hx Hd]. rewrite Hx. simpl. now rewrite IH. }
  rewrite Hc. apply give_back_hit; [lia|]. subst n.
  now rewrite take_length_append, drop_length_append, append_nil_r.
Qed.
End Steps.

(** *** Lines *)

Lemma count_any s : count CAny None s = String.length (first_line s).
Proof.
  induction s as [|x s IH]; simpl; [reflexivity|].
  destruct (Ascii.eqb x LF); simpl; [reflexivity | now rewrite IH].
Qed.

Lemma first_line_append a b :
  all_in CAny a = true -> first_line (a ++ b) = a ++ first_line b.
Proof.
  induction a as [|x a IH]; simpl; [reflexivity|].
  intros H. apply andb_prop in H as [Hx Ha].
  destruct (Ascii.eqb x LF); [discriminate|]. now rewrite IH.
Qed.

Lemma starts_with_first_line w s :
  all_in CAny w = true -> starts_with w s = true -> starts_with w (first_line s) = true.
Proof.
  revert s; induction w as [|x w IH]; intros s Hw; simpl; [reflexivity|].
  simpl in Hw. apply andb_prop in Hw as [Hx Hw].
  destruct s as [|y s]; [discriminate|]. simpl.
  destruct (Ascii.eqb_spec x y) as [<-|]; [|discriminate]. simpl.
  destruct (Ascii.eqb x LF); [discriminate|]. simpl.
  rewrite Ascii.eqb_refl. now apply IH.
Qed.

(** An occurrence that starts on the first line of [s] and holds no line
    feed lies on that line. *)
Lemma occurs_first_line w s e :
  all_in CAny w = true -> e <= String.length (first_line s) ->
  starts_with w (drop e s) = true -> occurs w (first_line s) = true.
Proof.
  intros Hw. revert s; induction e as [|e IH]; intros s He Hp.
  - assert (H : starts_with w (first_line s) = true).
    { apply starts_with_first_line; [exact Hw|]. now destruct s. }
    destruct (first_line s); simpl; now rewrite H.
  - destruct s as [|y s]; simpl in *; [lia|].
    destruct (Ascii.eqb y LF); simpl in *; [lia|].
    rewrite (IH s); [apply orb_true_r | lia | exact Hp].
Qed.

Lemma drop_add n m s : drop (n + m) s = drop m (drop n s).
Proof.
  revert s; induction n as [|n IH]; intros s; simpl; [now destruct s|].
  destruct s as [|x s]; [now destruct m | apply IH].
Qed.

Section Greedy.
Context {A : Type}.
Implicit Types (k : list (option string) -> string -> option A).

(** A group holding [.*] and followed by the literal [T]: the capture runs
    to the last place of the line where [T] stands. *)
Lemma match_nodes_star_any_last T cap rest g k res :
  all_in CAny cap = true -> all_in CAny T = true ->
  (forall i, 1 <= i < String.length T ->
             starts_with T (drop i T ++ rest) = false) ->
  occurs T (first_line rest) = false ->
  k (g ++ [Some cap])%list rest = Some res ->
  match_nodes (Group [star CAny] :: lit T) (cap ++ T ++ rest) g k = Some res.
Proof.
  intros Hcap HT Hself Hlast Hk. simpl.
  set (s := cap ++ T ++ rest).
  assert (Hn : count CAny None s
               = String.length cap + (String.length T
                                      + String.length (first_line rest))).
  { unfold s. rewrite count_any, !first_line_append by assumption.
    now rewrite !length_append. }
  rewrite Hn.
  assert (Hlit : forall c r, match_nodes (lit T) r (g ++ [Some (c ++ EmptyString)%string])%list k
                 = if starts_with T r then k (g ++ [Some c])%list (drop (String.length T) r)
                   else None).
  { intros c r. rewrite <- (app_nil_r (lit T)), match_nodes_lit.
    now rewrite append_nil_r. }
  apply give_back_last with (m := String.length cap); [lia| |].
  - intros j Hj. rewrite Hlit.
    replace j with (String.length cap + (j - String.length cap)) by lia.
    unfold s. rewrite drop_add, drop_length_append.
    set (i := j - String.length cap). assert (Hi : 1 <= i) by (unfold i; lia).
    destruct (Nat.lt_ge_cases i (String.length T)) as [Hlt|Hge].
    + rewrite drop_append_le by lia. now rewrite Hself.
    + replace i with (String.length T + (i - String.length T)) by lia.
      rewrite drop_add, drop_length_append.
      destruct (starts_with T (drop (i - String.length T) rest)) eqn:Hp;
        [|reflexivity].
      apply occurs_first_line in Hp; [congruence | exact HT | unfold i; lia].
  - rewrite Hlit. unfold s.
    rewrite take_length_append, drop_length_append, starts_with_append.
    now rewrite drop_length_append.
Qed.
End Greedy.

(** ** The coercions *)

Lemma digit_not_space c : is_digit c = true -> is_space c = false.
Proof.
  unfold is_digit, is_space. intros H.
  apply andb_prop in H as [H1 H2].
  apply Nat.leb_le in H1. apply Nat.leb_le in H2.
  repeat match goal with
         | |- context [(?a <=? ?b)%nat] => destruct (Nat.leb_spec a b)
         | |- context [(?a =? ?b)%nat] => destruct (Nat.eqb_spec a b)
         end; simpl; try reflexivity; lia.
Qed.

Lemma digit_not_char c x :
  is_digit c = true -> is_digit x = false -> Ascii.eqb c x = false.
Proof.
  intros Hc Hx. destruct (Ascii.eqb_spec c x) as [->|]; congruence.
Qed.

Lemma scan_digits_all v acc digits :
  all_in CDigit v = true ->
  scan_digits v acc digits false
  = Some (decimal_value v acc, digits + String.length v, EmptyString).
Proof.
  revert acc digits; induction v as [|c v IH]; intros acc digits H; simpl in *.
  - now rewrite Nat.add_0_r.
  - apply andb_prop in H as [Hc Hv]. rewrite Hc, IH by exact Hv.
    now rewrite Nat.add_succ_r.
Qed.

(** On a run of digits [int] fails only through the limit on their number. *)
Lemma int_of_str_digits v :
  all_in CDigit v = true -> 1 <= String.length v ->
  int_of_str v = if too_many_digits (String.length v) then inr ValueError
                 else inl (PyInt (decimal_value v 0)).
Proof.
  intros Hv Hlen. destruct v as [|c v]; [simpl in Hlen; lia|].
  pose proof Hv as Hall. simpl in Hv. apply andb_prop in Hv as [Hc _].
  unfold int_of_str. simpl lstrip. rewrite (digit_not_space c Hc).
  rewrite !(digit_not_char c) by (exact Hc || reflexivity).
  rewrite Hc, scan_digits_all by exact Hall.
  change (all_space EmptyString) with true. cbv iota.
  destruct (too_many_digits _); [reflexivity|].
  now rewrite Z.mul_1_l.
Qed.

Lemma too_many_digits_le n : n <= 4300 -> too_many_digits n = false.
Proof.
  intros H. unfold too_many_digits, default_max_str_digits.
  destruct (Nat.ltb_spec 4300 n); [lia|]. now rewrite andb_false_r.
Qed.

Lemma too_many_digits_gt n : 4300 < n -> too_many_digits n = true.
Proof.
  intros H.
  unfold too_many_digits, default_max_str_digits, str_digits_check_threshold.
  destruct (Nat.ltb_spec 640 n); [|lia].
  destruct (Nat.ltb_spec 4300 n); [|lia].
  destruct (Nat.ltb_spec 0 4300); [reflexivity | lia].
Qed.

(** ** The loop over the argument names *)

Lemma fill_arguments_inl names : forall i arg_types groups d d',
  fill_arguments i names arg_types groups d = inl d' ->
  forall j, j < length names ->
  exists f v x, nth_error arg_types (i + j) = Some f
                /\ nth_error groups (i + j) = Some v
                /\ call f v = inl x.
Proof.
  induction names as [|name names IH]; intros i arg_types groups d d' H j Hj;
    simpl in *; [lia|].
  destruct (nth_error arg_types i) as [f|] eqn:Hf; [|discriminate].
  destruct (nth_error groups i) as [v|] eqn:Hv; [|discriminate].
  destruct (call f v) as [x|e] eqn:Hc; [|discriminate].
  destruct j as [|j].
  - rewrite Nat.add_0_r. now exists f, v, x.
  - rewrite Nat.add_succ_r. apply (IH (S i) _ _ _ _ H j). lia.
Qed.

Lemma fill_arguments_raises names arg_types groups :
  length groups < length names
  \/ length arg_types < length names
  \/ (exists i f v e, i < length names
                      /\ nth_error arg_types i = Some f
                      /\ nth_error groups i = Some v
                      /\ call f v = inr e) ->
  exists e, fill_arguments 0 names arg_types groups [] = inr e.
Proof.
  intros H.
  destruct (fill_arguments 0 names arg_types groups []) as [d|e] eqn:E;
    [|now exists e].
  exfalso. pose proof (fill_arguments_inl _ _ _ _ _ _ E) as Hall.
  destruct H as [H | [H | (i & f & v & e & Hi & Hf & Hv & Hc)]].
  - destruct (Hall (length groups) H) as (f & v & x & _ & Hv & _).
    simpl in Hv.
    assert (nth_error groups (length groups) = None)
      by (apply nth_error_None; lia).
    congruence.
  - destruct (Hall (length arg_types) H) as (f & v & x & Hf & _).
    simpl in Hf.
    assert (nth_error arg_types (length arg_types) = None)
      by (apply nth_error_None; lia).
    congruence.
  - destruct (Hall i Hi) as (f' & v' & x & Hf' & Hv' & Hc').
    simpl in *. congruence.
Qed.

Lemma on_match_raises func_name names arg_types groups e :
  fill_arguments 0 names arg_types groups [] = inr e ->
  e <> TypeError ->
  on_match func_name names arg_types groups
  = HTTPException 400 "Parameter type mismatch".
Proof. unfold on_match. intros -> He. now destruct e. Qed.

Lemma int_of_str_not_type_error s : int_of_str s <> inr TypeError.
Proof.
  unfold int_of_str.
  repeat match goal with
         | |- context [match ?x with _ => _ end] => destruct x
         end; discriminate.
Qed.

(** [TypeError] comes from [int(None)] only. *)
Lemma call_type_error f v :
  call f v = inr TypeError -> f = py_int /\ v = None.
Proof.
  destruct f, v as [s|]; simpl; try discriminate; [|now split].
  intros H. now apply int_of_str_not_type_error in H.
Qed.

Lemma fill_arguments_type_error names : forall i arg_types groups d,
  fill_arguments i names arg_types groups d = inr TypeError ->
  exists j, j < length names
            /\ nth_error arg_types (i + j) = Some py_int
            /\ nth_error groups (i + j) = Some None.
Proof.
  induction names as [|name names IH]; intros i arg_types groups d; simpl;
    [discriminate|].
  destruct (nth_error arg_types i) as [f|] eqn:Hf; [|discriminate].
  destruct (nth_error groups i) as [v|] eqn:Hv; [|discriminate].
  destruct (call f v) as [x|e] eqn:Hc.
  - intros H. apply IH in H as (j & Hj & H). exists (S j).
    rewrite Nat.add_succ_r. split; [lia | exact H].
  - intros [= ->]. apply call_type_error in Hc as [-> ->].
    exists 0. rewrite Nat.add_0_r. split; [lia | now split].
Qed.

(** ** Queries of the shapes the table recognises *)

Lemma match_lit_end (A : Type) w s g (k : list (option string) -> string -> option A) :
  match_nodes (lit w) (w ++ s) g k = k g s.
Proof.
  rewrite <- (app_nil_r (lit w)). now rewrite match_nodes_lit_append.
Qed.

Lemma ticket_status_match d rest :
  all_in CDigit d = true -> 1 <= String.length d ->
  pattern_match (rule_pattern GET_TICKET_STATUS)
                ("What is the status of ticket " ++ d ++ "?" ++ rest)
  = Some [Some d].
Proof.
  intros Hd Hlen. rewrite GET_TICKET_STATUS_pattern. unfold pattern_match.
  rewrite match_nodes_lit_append.
  apply match_nodes_plus_group; [exact Hd | exact Hlen | reflexivity|].
  now rewrite match_lit_end.
Qed.

Lemma schedule_meeting_match d t room rest :
  all_in DIGITS_DASH d = true -> 1 <= String.length d ->
  all_in DIGITS_COLON t = true -> 1 <= String.length t ->
  all_in CAny room = true ->
  occurs "." (first_line rest) = false ->
  pattern_match (rule_pattern SCHEDULE_MEETING)
                ("Schedule a meeting on " ++ d ++ " at " ++ t ++ " in "
                   ++ room ++ "." ++ rest)
  = Some [Some d; Some t; Some room].
Proof.
  intros Hd Hdl Ht Htl Hroom Hlast.
  rewrite SCHEDULE_MEETING_pattern. unfold pattern_match.
  rewrite match_nodes_lit_append.
  apply match_nodes_plus_group; [exact Hd | exact Hdl | reflexivity|].
  rewrite match_nodes_lit_append.
  apply match_nodes_plus_group; [exact Ht | exact Htl | reflexivity|].
  rewrite match_nodes_lit_append.
  apply match_nodes_star_any_last;
    [exact Hroom | reflexivity | simpl; intros; lia | exact Hlast | reflexivity].
Qed.

Lemma report_office_issue_match n dept rest :
  all_in CDigit n = true -> 1 <= String.length n ->
  all_in CAny dept = true ->
  occurs " department." (first_line rest) = false ->
  pattern_match (rule_pattern REPORT_OFFICE_ISSUE)
                ("Report office issue " ++ n ++ " for the "
                   ++ dept ++ " department." ++ rest)
  = Some [Some n; Some dept].
Proof.
  intros Hn Hnl Hdept Hlast.
  rewrite REPORT_OFFICE_ISSUE_pattern. unfold pattern_match.
  rewrite match_nodes_lit_append.
  apply match_nodes_plus_group; [exact Hn | exact Hnl | reflexivity|].
  rewrite match_nodes_lit_append.
  apply match_nodes_star_any_last;
    [exact Hdept | reflexivity | | exact Hlast | reflexivity].
  intros i Hi. simpl in Hi.
  do 12 (destruct i as [|i]; [try lia; reflexivity|]). lia.
Qed.

Lemma expense_balance_match n rest :
  all_in CDigit n = true -> 1 <= String.length n ->
  pattern_match (rule_pattern GET_EXPENSE_BALANCE)
                ("Show my expense balance for employee " ++ n ++ "." ++ rest)
  = Some [Some n].
Proof.
  intros Hn Hlen. rewrite GET_EXPENSE_BALANCE_pattern. unfold pattern_match.
  rewrite match_nodes_lit_append.
  apply match_nodes_plus_group; [exact Hn | exact Hlen | reflexivity|].
  now rewrite match_lit_end.
Qed.

Lemma performance_bonus_match n year rest :
  all_in CDigit n = true -> 1 <= String.length n ->
  all_in CDigit year = true -> String.length year = 4 ->
  pattern_match (rule_pattern CALCULATE_PERFORMANCE_BONUS)
                ("Calculate performance bonus for employee " ++ n ++ " for "
                   ++ year ++ "." ++ rest)
  = Some [Some n; Some year].
Proof.
  intros Hn Hlen Hy Hylen.
  rewrite CALCULATE_PERFORMANCE_BONUS_pattern. unfold pattern_match.
  rewrite match_nodes_lit_append.
  apply match_nodes_plus_group; [exact Hn | exact Hlen | reflexivity|].
  rewrite match_nodes_lit_append.
  apply match_nodes_exactly_group; [exact Hy | exact Hylen|].
  now rewrite match_lit_end.
Qed.

(** A query that does not start with the literal text of a pattern. *)
Lemma other_start (A : Type) w p s g (k : list (option string) -> string -> option A) :
  starts_with w s = false -> match_nodes (lit w ++ p)%list s g k = None.
Proof. intros H. now rewrite match_nodes_lit, H. Qed.

(** ** The request without a query *)

(** C1, as the handler has it: a request without the parameter [q] is
    answered with HTTP 400 and the message "Missing query parameter 'q'",
    whatever the rule table, which is not scanned.  The empty string is a
    query like any other: it is matched against the table, and with the
    five rules of the table the answer is HTTP 404. *)
Theorem missing_query_is_rejected :
  (forall rules,
      execute_query_with rules None
      = HTTPException 400 "Missing query parameter 'q'")
  /\ (forall rules,
         execute_query_with rules (Some EmptyString) = scan rules EmptyString)
  /\ execute_query (Some EmptyString)
     = HTTPException 404 "No matching function found for the query".
Proof. repeat split. Qed.

(** C1 as stated fails on the empty string: the handler answers 404 "No
    matching function found for the query" after trying the five patterns,
    not 400 "Missing query parameter 'q'". *)
Lemma empty_query_is_matched :
  execute_query (Some EmptyString)
  = HTTPException 404 "No matching function found for the query"
  /\ execute_query (Some EmptyString)
     <> HTTPException 400 "Missing query parameter 'q'"
  /\ status (execute_query (Some EmptyString)) = 404%Z.
Proof. repeat split. discriminate. Qed.

(** ** Matching at the start of the query *)

(** C2: a pattern is matched at offset 0 and need not reach the end of the
    query: when it matches [q] it matches [q] followed by any text [t].  The
    ticket query followed by any text gets the answer of the ticket query
    itself, " Please hurry." being one such text. *)
Theorem trailing_text_is_ignored (p : regex) (q t : string)
        (groups : list (option string)) :
  pattern_match p q = Some groups ->
  (exists groups', pattern_match p (q ++ t) = Some groups')
  /\ execute_query (Some ("What is the status of ticket 83742?" ++ t))
     = execute_query (Some "What is the status of ticket 83742?")
  /\ execute_query (Some "What is the status of ticket 83742? Please hurry.")
     = Return [("name", PyStr "get_ticket_status");
               ("arguments", PyStr (Json.dumps [("ticket_id", PyInt 83742)]))].
Proof.
  intros H. split; [now apply pattern_match_extend with (groups := groups)|].
  split; [|reflexivity].
  unfold execute_query, execute_query_with, FUNCTION_RULES.
  change (scan ?l ?s) with (scan ([] ++ l) s) at 1.
  unfold GET_TICKET_STATUS at 1.
  rewrite scan_first_match with (groups := [Some "83742"]);
    [reflexivity | intros r [] |].
  exact (ticket_status_match "83742" t eq_refl (le_n_S _ _ (Nat.le_0_l _))).
Qed.

Lemma trailing_text_is_ignored_witness :
  (exists groups',
      pattern_match (rule_pattern SCHEDULE_MEETING)
        ("Schedule a meeting on 2025-02-15 at 14:00 in Room A."
           ++ " See you there")
      = Some groups')
  /\ execute_query
       (Some ("What is the status of ticket 83742?" ++ " See you there"))
     = execute_query (Some "What is the status of ticket 83742?")
  /\ execute_query (Some "What is the status of ticket 83742? Please hurry.")
     = Return [("name", PyStr "get_ticket_status");
               ("arguments", PyStr (Json.dumps [("ticket_id", PyInt 83742)]))].
Proof.
  apply (trailing_text_is_ignored
           (rule_pattern SCHEDULE_MEETING)
           "Schedule a meeting on 2025-02-15 at 14:00 in Room A."
           " See you there" [Some "2025-02-15"; Some "14:00"; Some "Room A"]).
  reflexivity.
Defined.

(** ** The order of the table *)

(** C3: the answer is that of the first rule of the table whose pattern
    matches the query.  The rules after it play no part: replacing them by
    any others, matching or not, leaves the answer as it is. *)
Theorem first_match_wins (pre post : list rule) (pattern : regex)
        (func_name : string) (arg_names : list string)
        (arg_types : list callable) (q : string) (groups : list (option string)) :
  (forall r, In r pre -> pattern_match (rule_pattern r) q = None) ->
  pattern_match pattern q = Some groups ->
  execute_query_with
    (pre ++ (pattern, func_name, arg_names, arg_types) :: post) (Some q)
  = on_match func_name arg_names arg_types groups
  /\ forall post',
      execute_query_with
        (pre ++ (pattern, func_name, arg_names, arg_types) :: post') (Some q)
      = execute_query_with
          (pre ++ (pattern, func_name, arg_names, arg_types) :: post) (Some q).
Proof.
  intros Hpre Hm. simpl. split; [now apply scan_first_match|].
  intros post'. now rewrite !scan_first_match with (groups := groups).
Qed.

(** Two rules that both match "Make me a sandwich.", after one that does
    not: the answer names the earlier of the two. *)
Lemma first_match_wins_witness :
  execute_query_with
    ([GET_TICKET_STATUS]
       ++ (lit "Make me", "first", [], [])
       :: [(lit "Make me a", "second", [], [])])
    (Some "Make me a sandwich.")
  = Return [("name", PyStr "first"); ("arguments", PyStr "{}")]
  /\ forall post',
      execute_query_with
        ([GET_TICKET_STATUS] ++ (lit "Make me", "first", [], []) :: post')
        (Some "Make me a sandwich.")
      = execute_query_with
          ([GET_TICKET_STATUS]
             ++ (lit "Make me", "first", [], [])
             :: [(lit "Make me a", "second", [], [])])
          (Some "Make me a sandwich.").
Proof.
  apply (first_match_wins [GET_TICKET_STATUS]
           [(lit "Make me a", "second", [], [])]
           (lit "Make me") "first" [] [] "Make me a sandwich." []).
  - intros r [<-|[]]. reflexivity.
  - reflexivity.
Defined.

(** ** The two boundary queries *)

(** C5: the ticket query is answered with the name "get_ticket_status" and
    the arguments ticket_id = 83742, an integer: [int] turned the capture
    "83742" into the number, and the serialised mapping shows it without
    quotes, unlike the string "83742". *)
Theorem ticket_query :
  execute_query (Some "What is the status of ticket 83742?")
  = Return [("name", PyStr "get_ticket_status");
            ("arguments", PyStr (Json.dumps [("ticket_id", PyInt 83742)]))]
  /\ pattern_match (rule_pattern GET_TICKET_STATUS)
                   "What is the status of ticket 83742?"
     = Some [Some "83742"]
  /\ fill_arguments 0 ["ticket_id"] [py_int] [Some "83742"] []
     = inl [("ticket_id", PyInt 83742)]
  /\ Json.dumps [("ticket_id", PyInt 83742)]
     = "{" ++ quoted "ticket_id" ++ ": 83742}"
  /\ Json.dumps [("ticket_id", PyStr "83742")]
     = "{" ++ quoted "ticket_id" ++ ": " ++ quoted "83742" ++ "}".
Proof. repeat split. Qed.

(** C6: the meeting query is answered with the name "schedule_meeting" and
    the arguments date, time and meeting_room, in this order, each the
    captured text as it stands: "2025-02-15", "14:00" and "Room A".  [str]
    gives back the capture it is given, so spaces around the room name
    stay in it. *)
Theorem meeting_query :
  execute_query
    (Some "Schedule a meeting on 2025-02-15 at 14:00 in Room A.")
  = Return [("name", PyStr "schedule_meeting");
            ("arguments",
             PyStr (Json.dumps [("date", PyStr "2025-02-15");
                                ("time", PyStr "14:00");
                                ("meeting_room", PyStr "Room A")]))]
  /\ pattern_match (rule_pattern SCHEDULE_MEETING)
                   "Schedule a meeting on 2025-02-15 at 14:00 in Room A."
     = Some [Some "2025-02-15"; Some "14:00"; Some "Room A"]
  /\ fill_arguments 0 ["date"; "time"; "meeting_room"]
                    [py_str; py_str; py_str]
                    [Some "2025-02-15"; Some "14:00"; Some "Room A"] []
     = inl [("date", PyStr "2025-02-15"); ("time", PyStr "14:00");
            ("meeting_room", PyStr "Room A")]
  /\ Json.dumps [("date", PyStr "2025-02-15"); ("time", PyStr "14:00");
                 ("meeting_room", PyStr "Room A")]
     = "{" ++ quoted "date" ++ ": " ++ quoted "2025-02-15" ++ ", "
           ++ quoted "time" ++ ": " ++ quoted "14:00" ++ ", "
           ++ quoted "meeting_room" ++ ": " ++ quoted "Room A" ++ "}"
  /\ (forall v, call py_str (Some v) = inl (PyStr v))
  /\ execute_query
       (Some "Schedule a meeting on 2025-02-15 at 14:00 in  Room A .")
     = Return [("name", PyStr "schedule_meeting");
               ("arguments",
                PyStr (Json.dumps [("date", PyStr "2025-02-15");
                                   ("time", PyStr "14:00");
                                   ("meeting_room", PyStr " Room A ")]))].
Proof. repeat split. Qed.

(** ** No rule matches *)

(** C7: when no pattern of the table matches the query the handler answers
    HTTP 404 with the message "No matching function found for the query";
    "Make me a sandwich." is such a query for the five rules. *)
Theorem no_match_is_not_found (rules : list rule) (q : string) :
  (forall r, In r rules -> pattern_match (rule_pattern r) q = None) ->
  execute_query_with rules (Some q)
  = HTTPException 404 "No matching function found for the query"
  /\ status (execute_query_with rules (Some q)) = 404%Z
  /\ execute_query (Some "Make me a sandwich.")
     = HTTPException 404 "No matching function found for the query".
Proof.
  intros H. simpl. rewrite (scan_no_match rules q H). repeat split.
Qed.

Lemma no_match_is_not_found_witness :
  execute_query_with FUNCTION_RULES (Some "Make me a sandwich.")
  = HTTPException 404 "No matching function found for the query"
  /\ status (execute_query_with FUNCTION_RULES (Some "Make me a sandwich."))
     = 404%Z
  /\ execute_query (Some "Make me a sandwich.")
     = HTTPException 404 "No matching function found for the query".
Proof.
  apply (no_match_is_not_found FUNCTION_RULES "Make me a sandwich.").
  intros r Hr. simpl in Hr.
  repeat (destruct Hr as [<-|Hr]; [reflexivity|]). destruct Hr.
Defined.

(** ** A rule that matches and cannot be coerced *)




(** ** The body of a successful answer *)

Lemma keys_setitem d k v :
  keys (setitem d k v)
  = if existsb (String.eqb k) (keys d) then keys d else (keys d ++ [k])%list.
Proof.
  unfold keys. induction d as [|[k' v'] d IH]; simpl; [reflexivity|].
  rewrite (String.eqb_sym k k').
  destruct (String.eqb k' k); simpl; [reflexivity|].
  rewrite IH.
  now destruct (existsb (String.eqb k) (map fst d)).
Qed.

Lemma fill_arguments_keys names : forall i arg_types groups d d',
  fill_arguments i names arg_types groups d = inl d' ->
  keys d' = (keys d ++ first_occurrences (keys d) names)%list.
Proof.
  induction names as [|name names IH]; intros i arg_types groups d d'; simpl.
  - intros [= <-]. now rewrite app_nil_r.
  - destruct (nth_error arg_types i) as [f|]; [|discriminate].
    destruct (nth_error groups i) as [v|]; [|discriminate].
    destruct (call f v) as [x|e]; [|discriminate].
    intros H. apply IH in H. rewrite H, keys_setitem.
    destruct (existsb (String.eqb name) (keys d)); [reflexivity|].
    now rewrite <- app_assoc.
Qed.

Lemma first_occurrences_NoDup names : forall seen,
  NoDup names -> (forall n, In n names -> ~ In n seen) ->
  first_occurrences seen names = names.
Proof.
  induction names as [|n names IH]; intros seen Hnd Hseen; simpl;
    [reflexivity|].
  inversion Hnd as [|? ? Hn Hnd']; subst.
  destruct (existsb (String.eqb n) seen) eqn:E.
  - apply existsb_exists in E as (m & Hm & Heq).
    apply String.eqb_eq in Heq; subst m.
    exfalso. apply (Hseen n); [now left | exact Hm].
  - f_equal. apply IH; [exact Hnd'|].
    intros m Hm Hin. apply in_app_or in Hin as [Hin|[<-|[]]].
    + apply (Hseen m); [now right | exact Hin].
    + contradiction.
Qed.

(** C4: the body of a successful answer has two fields.  "name" is the
    function name of the rule that matched, and "arguments" is a string:
    the text [json.dumps] makes of the mapping the handler filled.  The
    keys of that mapping are the argument names in their order, each once
    (a name that is repeated keeps its first place). *)
Theorem success_body (rules : list rule) (q : string) (body : dict) :
  execute_query_with rules (Some q) = Return body ->
  exists pattern func_name arg_names arg_types groups arguments,
    In (pattern, func_name, arg_names, arg_types) rules
    /\ pattern_match pattern q = Some groups
    /\ fill_arguments 0 arg_names arg_types groups [] = inl arguments
    /\ body = [("name", PyStr func_name);
               ("arguments", PyStr (Json.dumps arguments))]
    /\ getitem body "name" = Some (PyStr func_name)
    /\ getitem body "arguments" = Some (PyStr (Json.dumps arguments))
    /\ keys arguments = first_occurrences [] arg_names
    /\ (NoDup arg_names -> keys arguments = arg_names).
Proof.
  simpl. intros H.
  destruct (scan_inv rules q)
    as [[H404 _] | (pre & post & p & f & ns & ts & g & E & _ & Hm & Hs)];
    [congruence|].
  rewrite Hs in H. unfold on_match in H.
  destruct (fill_arguments 0 ns ts g []) as [d|[| |]] eqn:Hfill;
    try discriminate.
  injection H as <-.
  assert (Hkeys : keys d = first_occurrences [] ns)
    by exact (fill_arguments_keys _ _ _ _ _ _ Hfill).
  exists p, f, ns, ts, g, d. repeat split; try assumption.
  - rewrite E. apply in_or_app. right. now left.
  - intros Hnd. rewrite Hkeys. apply first_occurrences_NoDup; [exact Hnd|].
    intros n _ [].
Qed.

Lemma success_body_witness :
  exists pattern func_name arg_names arg_types groups arguments,
    In (pattern, func_name, arg_names, arg_types) FUNCTION_RULES
    /\ pattern_match pattern
         "Calculate performance bonus for employee 10056 for 2025."
       = Some groups
    /\ fill_arguments 0 arg_names arg_types groups [] = inl arguments
    /\ [("name", PyStr "calculate_performance_bonus");
        ("arguments",
         PyStr ("{" ++ quoted "employee_id" ++ ": 10056, "
                    ++ quoted "current_year" ++ ": 2025}"))]
       = [("name", PyStr func_name);
          ("arguments", PyStr (Json.dumps arguments))]
    /\ getitem [("name", PyStr "calculate_performance_bonus");
                ("arguments",
                 PyStr ("{" ++ quoted "employee_id" ++ ": 10056, "
                            ++ quoted "current_year" ++ ": 2025}"))]
               "name"
       = Some (PyStr func_name)
    /\ getitem [("name", PyStr "calculate_performance_bonus");
                ("arguments",
                 PyStr ("{" ++ quoted "employee_id" ++ ": 10056, "
                            ++ quoted "current_year" ++ ": 2025}"))]
               "arguments"
       = Some (PyStr (Json.dumps arguments))
    /\ keys arguments = first_occurrences [] arg_names
    /\ (NoDup arg_names -> keys arguments = arg_names).
Proof.
  apply (success_body
           FUNCTION_RULES
           "Calculate performance bonus for employee 10056 for 2025.").
  reflexivity.
Defined.

(** ** Integer captures of the five rules *)

Lemma captures_accept_lit w p caps :
  captures_accept (lit w ++ p)%list caps <-> captures_accept p caps.
Proof. induction w as [|x w IH]; simpl; [reflexivity | exact IH]. Qed.

Lemma plus_accepts cls c :
  atoms_accept [plus cls] c -> all_in cls c = true /\ 1 <= String.length c.
Proof.
  intros (c1 & c2 & -> & (Hall & Hlen & _) & ->).
  now rewrite append_nil_r.
Qed.

Lemma exactly_accepts n cls c :
  atoms_accept [exactly n cls] c ->
  all_in cls c = true /\ String.length c = n.
Proof.
  intros (c1 & c2 & -> & (Hall & Hlo & Hhi) & ->).
  rewrite append_nil_r. split; [exact Hall | lia].
Qed.

Ltac captures H :=
  repeat match type of H with
         | captures_accept (lit _ ++ _)%list _ =>
             apply captures_accept_lit in H
         | captures_accept (Group _ :: _) _ =>
             let c := fresh "c" in
             let Hc := fresh "Hc" in
             destruct H as (c & ? & -> & Hc & H)
         | captures_accept (lit _) _ =>
             rewrite <- (app_nil_r (lit _)) in H;
             apply captures_accept_lit in H
         | captures_accept [] _ => simpl in H; subst
         end.

(** What the five patterns capture: as many groups as the rule has
    argument names and types, each of them a string, and a run of one
    digit or more wherever the type is [int]. *)
Lemma default_rules_captures r q groups :
  In r FUNCTION_RULES ->
  pattern_match (rule_pattern r) q = Some groups ->
  length groups = length (rule_arg_names r)
  /\ length (rule_arg_types r) = length (rule_arg_names r)
  /\ (forall i v, nth_error (rule_arg_types r) i = Some py_int ->
                  nth_error groups i = Some (Some v) ->
                  all_in CDigit v = true /\ 1 <= String.length v)
  /\ (forall i, nth_error groups i <> Some None).
Proof.
  intros Hr Hm. apply pattern_match_sound in Hm as [Hcaps _].
  simpl in Hr. destruct Hr as [<-|[<-|[<-|[<-|[<-|[]]]]]].
  - rewrite GET_TICKET_STATUS_pattern in Hcaps. captures Hcaps.
    split; [reflexivity | split; [reflexivity|split]].
    + intros [|[|i]] cap; simpl; try discriminate.
      intros _ [= <-]. now apply plus_accepts.
    + intros [|[|i]]; simpl; discriminate.
  - rewrite SCHEDULE_MEETING_pattern in Hcaps. captures Hcaps.
    split; [reflexivity | split; [reflexivity|split]].
    + intros [|[|[|[|i]]]] cap; simpl; discriminate.
    + intros [|[|[|[|i]]]]; simpl; discriminate.
  - rewrite GET_EXPENSE_BALANCE_pattern in Hcaps. captures Hcaps.
    split; [reflexivity | split; [reflexivity|split]].
    + intros [|[|i]] cap; simpl; try discriminate.
      intros _ [= <-]. now apply plus_accepts.
    + intros [|[|i]]; simpl; discriminate.
  - rewrite CALCULATE_PERFORMANCE_BONUS_pattern in Hcaps. captures Hcaps.
    split; [reflexivity | split; [reflexivity|split]].
    + intros [|[|[|i]]] cap; simpl; try discriminate; intros _ [= <-].
      * now apply plus_accepts.
      * apply exactly_accepts in Hc0 as [Hall Hlen].
        split; [exact Hall | lia].
    + intros [|[|[|i]]]; simpl; discriminate.
  - rewrite REPORT_OFFICE_ISSUE_pattern in Hcaps. captures Hcaps.
    split; [reflexivity | split; [reflexivity|split]].
    + intros [|[|[|i]]] cap; simpl; try discriminate.
      intros _ [= <-]. now apply plus_accepts.
    + intros [|[|[|i]]]; simpl; discriminate.
Qed.


Lemma integer_capture_call r q groups i v :
  In r FUNCTION_RULES ->
  pattern_match (rule_pattern r) q = Some groups ->
  nth_error (rule_arg_types r) i = Some py_int ->
  nth_error groups i = Some (Some v) ->
  call py_int (Some v)
  = if (4300 <? String.length v)%nat then inr ValueError
    else inl (PyInt (decimal_value v 0)).
Proof.
  intros Hr Hm Hi Hv.
  destruct (default_rules_captures r q groups Hr Hm) as (_ & _ & Hdig & _).
  destruct (Hdig i v Hi Hv) as [Hall Hlen].
  simpl. rewrite int_of_str_digits by assumption.
  destruct (Nat.ltb_spec 4300 (String.length v)).
  - now rewrite too_many_digits_gt.
  - now rewrite too_many_digits_le.
Qed.




(** ** Greedy captures *)

(** C10: the groups holding [.*] are greedy on the line.  In a meeting
    query the room is all the text between "in " and the last period of
    the line: [room] may hold periods, and none stands after the one that
    ends it before the line ends.  In an office-issue query the department
    is the text up to the last " department." of the line, and when the
    issue number has at most 4300 digits the query is answered with it.
    With "Room A. Thanks." after "in ", the room is "Room A. Thanks". *)
Theorem captures_reach_the_last_terminator
        (d t room rest n dept rest' : string) :
  all_in DIGITS_DASH d = true -> 1 <= String.length d ->
  all_in DIGITS_COLON t = true -> 1 <= String.length t ->
  all_in CAny room = true ->
  occurs "." (first_line rest) = false ->
  all_in CDigit n = true -> 1 <= String.length n ->
  all_in CAny dept = true ->
  occurs " department." (first_line rest') = false ->
  execute_query
    (Some ("Schedule a meeting on " ++ d ++ " at " ++ t ++ " in "
             ++ room ++ "." ++ rest))
  = Return [("name", PyStr "schedule_meeting");
            ("arguments",
             PyStr (Json.dumps [("date", PyStr d); ("time", PyStr t);
                                ("meeting_room", PyStr room)]))]
  /\ pattern_match (rule_pattern REPORT_OFFICE_ISSUE)
       ("Report office issue " ++ n ++ " for the "
          ++ dept ++ " department." ++ rest')
     = Some [Some n; Some dept]
  /\ (String.length n <= 4300 ->
      execute_query
        (Some ("Report office issue " ++ n ++ " for the "
                 ++ dept ++ " department." ++ rest'))
      = Return [("name", PyStr "report_office_issue");
                ("arguments",
                 PyStr (Json.dumps [("issue_code", PyInt (decimal_value n 0));
                                    ("department", PyStr dept)]))])
  /\ execute_query
       (Some "Schedule a meeting on 2025-02-15 at 14:00 in Room A. Thanks.")
     = Return [("name", PyStr "schedule_meeting");
               ("arguments",
                PyStr (Json.dumps [("date", PyStr "2025-02-15");
                                   ("time", PyStr "14:00");
                                   ("meeting_room", PyStr "Room A. Thanks")]))].
Proof.
  intros Hd Hdl Ht Htl Hroom Hrest Hn Hnl Hdept Hrest'.
  pose proof (report_office_issue_match n dept rest' Hn Hnl Hdept Hrest')
    as Hreport.
  split; [|split; [exact Hreport | split; [|reflexivity]]].
  - unfold execute_query, execute_query_with, FUNCTION_RULES.
    change (scan (?a :: ?l) ?s) with (scan ([a] ++ l) s).
    unfold SCHEDULE_MEETING at 1.
    rewrite scan_first_match with (groups := [Some d; Some t; Some room]); [reflexivity| |].
    + intros r [<-|[]]. rewrite GET_TICKET_STATUS_pattern.
      now apply other_start.
    + now apply schedule_meeting_match.
  - intros Hshort.
    unfold execute_query, execute_query_with, FUNCTION_RULES.
    change (scan [?a; ?b; ?c; ?e; ?f] ?s) with (scan ([a; b; c; e] ++ [f]) s).
    unfold REPORT_OFFICE_ISSUE at 1.
    rewrite scan_first_match with (groups := [Some n; Some dept]).
    + unfold on_match, fill_arguments, nth_error, call.
      rewrite int_of_str_digits, too_many_digits_le by assumption.
      reflexivity.
    + intros r [<-|[<-|[<-|[<-|[]]]]].
      * rewrite GET_TICKET_STATUS_pattern. now apply other_start.
      * rewrite SCHEDULE_MEETING_pattern. now apply other_start.
      * rewrite GET_EXPENSE_BALANCE_pattern. now apply other_start.
      * rewrite CALCULATE_PERFORMANCE_BONUS_pattern. now apply other_start.
    + exact Hreport.
Qed.

Lemma captures_reach_the_last_terminator_witness :
  execute_query
    (Some ("Schedule a meeting on " ++ "2025-02-15" ++ " at " ++ "14:00"
             ++ " in " ++ "Room A. Thanks" ++ "." ++ EmptyString))
  = Return [("name", PyStr "schedule_meeting");
            ("arguments",
             PyStr (Json.dumps [("date", PyStr "2025-02-15");
                                ("time", PyStr "14:00");
                                ("meeting_room", PyStr "Room A. Thanks")]))]
  /\ pattern_match (rule_pattern REPORT_OFFICE_ISSUE)
       ("Report office issue " ++ "45321" ++ " for the "
          ++ "Facilities department. The IT" ++ " department."
          ++ String LF "The department.")
     = Some [Some "45321"; Some "Facilities department. The IT"]
  /\ (String.length "45321" <= 4300 ->
      execute_query
        (Some ("Report office issue " ++ "45321" ++ " for the "
                 ++ "Facilities department. The IT" ++ " department."
                 ++ String LF "The department."))
      = Return [("name", PyStr "report_office_issue");
                ("arguments",
                 PyStr (Json.dumps
                          [("issue_code", PyInt (decimal_value "45321" 0));
                           ("department",
                            PyStr "Facilities department. The IT")]))])
  /\ execute_query
       (Some "Schedule a meeting on 2025-02-15 at 14:00 in Room A. Thanks.")
     = Return [("name", PyStr "schedule_meeting");
               ("arguments",
                PyStr (Json.dumps [("date", PyStr "2025-02-15");
                                   ("time", PyStr "14:00");
                                   ("meeting_room", PyStr "Room A. Thanks")]))].
Proof.
  apply (captures_reach_the_last_terminator
           "2025-02-15" "14:00" "Room A. Thanks" EmptyString
           "45321" "Facilities department. The IT"
           (String LF "The department."));
    try reflexivity; simpl; lia.
Defined.

(** ** The matcher against what a pattern accepts *)

Section Accepts.
Context {A : Type}.

Lemma match_nodes_accepts p s groups
      (k : list (option string) -> string -> option A) res :
  match_nodes p s groups k = Some res ->
  exists c r caps,
    s = c ++ r /\ nodes_accept p c caps
    /\ k (groups ++ caps)%list r = Some res.
Proof.
  revert s groups; induction p as [|[a|body|body] p IH]; intros s groups;
    simpl.
  - intros Hk. exists EmptyString, s, []. now rewrite app_nil_r.
  - intros H. apply match_atom_sound in H as (c1 & r1 & -> & Ha & H).
    apply IH in H as (c2 & r2 & caps & -> & Hp & Hk).
    exists (c1 ++ c2), r2, caps. rewrite append_assoc.
    repeat split; [|exact Hk]. now exists c1, c2.
  - intros H. apply match_atoms_sound in H as (c1 & r1 & -> & Hb & H).
    apply IH in H as (c2 & r2 & caps & -> & Hp & Hk).
    exists (c1 ++ c2), r2, (Some c1 :: caps). rewrite append_assoc.
    repeat split; [now exists c1, c2, caps|].
    now rewrite <- app_assoc in Hk.
  - destruct (match_atoms body s _) as [res'|] eqn:Hbody.
    + intros [= ->].
      apply match_atoms_sound in Hbody as (c1 & r1 & -> & Hb & H).
      apply IH in H as (c2 & r2 & caps & -> & Hp & Hk).
      exists (c1 ++ c2), r2, (Some c1 :: caps). rewrite append_assoc.
      repeat split; [left; now exists c1, c2, caps|].
      now rewrite <- app_assoc in Hk.
    + intros H. apply IH in H as (c2 & r2 & caps & -> & Hp & Hk).
      exists c2, r2, (None :: caps).
      repeat split; [right; now exists caps|].
      now rewrite <- app_assoc in Hk.
Qed.
End Accepts.

Lemma pattern_match_accepts p q groups :
  pattern_match p q = Some groups ->
  exists c r, q = c ++ r /\ nodes_accept p c groups.
Proof.
  intros H. apply match_nodes_accepts in H as (c & r & caps & -> & Hp & [= <-]).
  now exists c, r.
Qed.

Lemma nodes_accept_lit w p c caps :
  nodes_accept (lit w ++ p)%list c caps ->
  exists c', c = w ++ c' /\ nodes_accept p c' caps.
Proof.
  revert c; induction w as [|x w IH]; intros c; simpl.
  - intros H. now exists c.
  - intros (c1 & c2 & -> & (y & -> & Hy) & H).
    apply Ascii.eqb_eq in Hy as ->.
    apply IH in H as (c' & -> & H). now exists c'.
Qed.

Lemma nodes_accept_lit_end w c caps :
  nodes_accept (lit w) c caps -> c = w /\ caps = [].
Proof.
  intros H. rewrite <- (app_nil_r (lit w)) in H.
  apply nodes_accept_lit in H as (c' & -> & -> & ->).
  now rewrite append_nil_r.
Qed.

Ltac accepted H :=
  repeat match type of H with
         | nodes_accept (lit _ ++ _)%list _ _ =>
             let c := fresh "c" in
             apply nodes_accept_lit in H as (c & -> & H)
         | nodes_accept (Group _ :: _) _ _ =>
             let c1 := fresh "cap" in
             let c2 := fresh "c" in
             let Hc := fresh "Hcap" in
             destruct H as (c1 & c2 & ? & -> & -> & Hc & H)
         | nodes_accept (lit _) _ _ =>
             apply nodes_accept_lit_end in H as [-> ->]
         end.

(** ** The queries each pattern recognises *)

(** X1: the ticket pattern matches exactly the queries that start with "What is
    the status of ticket ", one digit or more, and a question mark; the
    capture is the run of digits, and what follows the question mark is
    free. *)
Theorem ticket_pattern_language (q : string) (groups : list (option string)) :
  pattern_match (rule_pattern GET_TICKET_STATUS) q = Some groups
  <-> exists d rest,
      q = "What is the status of ticket " ++ d ++ "?" ++ rest
      /\ all_in CDigit d = true /\ 1 <= String.length d
      /\ groups = [Some d].
Proof.
  split.
  - intros H. apply pattern_match_accepts in H as (c & r & -> & H).
    rewrite GET_TICKET_STATUS_pattern in H. accepted H.
    apply plus_accepts in Hcap as [Hd Hlen].
    exists cap, r. repeat split; try assumption.
    now rewrite !append_assoc.
  - intros (d & rest & -> & Hd & Hlen & ->). now apply ticket_status_match.
Qed.

(** X2: the expense pattern matches exactly the queries that start with "Show
    my expense balance for employee ", one digit or more, and a period. *)
Theorem expense_pattern_language (q : string) (groups : list (option string)) :
  pattern_match (rule_pattern GET_EXPENSE_BALANCE) q = Some groups
  <-> exists n rest,
      q = "Show my expense balance for employee " ++ n ++ "." ++ rest
      /\ all_in CDigit n = true /\ 1 <= String.length n
      /\ groups = [Some n].
Proof.
  split.
  - intros H. apply pattern_match_accepts in H as (c & r & -> & H).
    rewrite GET_EXPENSE_BALANCE_pattern in H. accepted H.
    apply plus_accepts in Hcap as [Hd Hlen].
    exists cap, r. repeat split; try assumption.
    now rewrite !append_assoc.
  - intros (d & rest & -> & Hd & Hlen & ->). now apply expense_balance_match.
Qed.

(** X3: the bonus pattern matches exactly the queries that start with
    "Calculate performance bonus for employee ", one digit or more,
    " for ", four digits, and a period: the year has four digits, no more
    and no fewer. *)
Theorem bonus_pattern_language (q : string) (groups : list (option string)) :
  pattern_match (rule_pattern CALCULATE_PERFORMANCE_BONUS) q = Some groups
  <-> exists n year rest,
      q = "Calculate performance bonus for employee " ++ n ++ " for "
            ++ year ++ "." ++ rest
      /\ all_in CDigit n = true /\ 1 <= String.length n
      /\ all_in CDigit year = true /\ String.length year = 4
      /\ groups = [Some n; Some year].
Proof.
  split.
  - intros H. apply pattern_match_accepts in H as (c & r & -> & H).
    rewrite CALCULATE_PERFORMANCE_BONUS_pattern in H. accepted H.
    apply plus_accepts in Hcap as [Hd Hlen].
    apply exactly_accepts in Hcap0 as [Hy Hylen].
    exists cap, cap0, r. repeat split; try assumption.
    now rewrite !append_assoc.
  - intros (n & year & rest & -> & Hn & Hlen & Hy & Hylen & ->).
    now apply performance_bonus_match.
Qed.

Lemma all_in_append c a b : all_in c (a ++ b) = all_in c a && all_in c b.
Proof.
  induction a as [|x a IH]; simpl; [reflexivity|].
  now rewrite IH, andb_assoc.
Qed.

Lemma all_in_first_line s : all_in CAny (first_line s) = true.
Proof.
  induction s as [|x s IH]; simpl; [reflexivity|].
  destruct (Ascii.eqb x LF) eqn:E; simpl; [reflexivity|]. now rewrite E, IH.
Qed.

(** A string is its first line followed by nothing or by a line feed. *)
Lemma first_line_split s :
  exists tail, s = first_line s ++ tail /\ stops CAny tail = true.
Proof.
  induction s as [|x s (tail & IH & Htail)]; simpl.
  - now exists EmptyString.
  - destruct (Ascii.eqb x LF) eqn:E.
    + exists (String x s). simpl. now rewrite E.
    + exists tail. simpl. now rewrite <- IH.
Qed.

Lemma first_line_stops b tail :
  all_in CAny b = true -> stops CAny tail = true -> first_line (b ++ tail) = b.
Proof.
  intros Hb Ht. rewrite first_line_append by exact Hb.
  destruct tail as [|y tail]; simpl in *; [apply append_nil_r|].
  destruct (Ascii.eqb y LF); [apply append_nil_r | discriminate].
Qed.

Lemma starts_with_split w s :
  starts_with w s = true -> exists b, s = w ++ b.
Proof.
  revert s; induction w as [|x w IH]; intros s; simpl.
  - now exists s.
  - destruct s as [|y s]; [discriminate|].
    destruct (Ascii.eqb_spec x y) as [<-|]; [|discriminate]. simpl.
    intros H. apply IH in H as [b ->]. now exists b.
Qed.

Lemma occurs_split w s :
  occurs w s = true -> exists a b, s = a ++ w ++ b.
Proof.
  induction s as [|x s IH]; simpl.
  - rewrite orb_false_r. intros H. apply starts_with_split in H as [b ->].
    now exists EmptyString, b.
  - intros H. apply orb_prop in H as [H|H].
    + apply starts_with_split in H as [b ->]. now exists EmptyString, b.
    + apply IH in H as (a & b & ->). now exists (String x a), b.
Qed.

(** Among the places of a line where [T] stands there is a last one. *)
Lemma last_occurrence T : forall n room rest,
  String.length (first_line rest) <= n ->
  all_in CAny T = true -> 1 <= String.length T ->
  all_in CAny room = true ->
  exists room' rest',
    room ++ T ++ rest = room' ++ T ++ rest'
    /\ all_in CAny room' = true
    /\ occurs T (first_line rest') = false.
Proof.
  induction n as [|n IH]; intros room rest Hn HT Hlen Hroom;
    destruct (occurs T (first_line rest)) eqn:Hocc;
    try (now exists room, rest).
  - apply occurs_split in Hocc as (a & b & E).
    rewrite E, !length_append in Hn. lia.
  - apply occurs_split in Hocc as (a & b & E).
    destruct (first_line_split rest) as (tail & Hrest & Htail).
    pose proof (all_in_first_line rest) as Hfl.
    rewrite E, !all_in_append in Hfl.
    apply andb_prop in Hfl as [Ha Hfl]. apply andb_prop in Hfl as [_ Hb].
    destruct (IH (room ++ T ++ a) (b ++ tail)) as (room' & rest' & E' & H1 & H2).
    + rewrite first_line_stops by assumption.
      rewrite E, !length_append in Hn. lia.
    + exact HT.
    + exact Hlen.
    + now rewrite !all_in_append, Hroom, HT, Ha.
    + exists room', rest'. repeat split; try assumption.
      rewrite <- E', Hrest, E. now rewrite !append_assoc.
Qed.

Lemma star_accepts cls c : atoms_accept [star cls] c -> all_in cls c = true.
Proof.
  intros (c1 & c2 & -> & (Hall & _) & ->). now rewrite append_nil_r.
Qed.

(** X4: the meeting pattern matches exactly the queries made of "Schedule a
    meeting on ", a date of digits and hyphens, " at ", a time of digits
    and colons, " in ", a room on the same line and a period; the room
    ends at the last period of the line. *)
Theorem meeting_pattern_language (q : string) (groups : list (option string)) :
  pattern_match (rule_pattern SCHEDULE_MEETING) q = Some groups
  <-> exists d t room rest,
      q = "Schedule a meeting on " ++ d ++ " at " ++ t ++ " in "
            ++ room ++ "." ++ rest
      /\ all_in DIGITS_DASH d = true /\ 1 <= String.length d
      /\ all_in DIGITS_COLON t = true /\ 1 <= String.length t
      /\ all_in CAny room = true
      /\ occurs "." (first_line rest) = false
      /\ groups = [Some d; Some t; Some room].
Proof.
  split.
  - intros Hm. pose proof Hm as H.
    apply pattern_match_accepts in H as (c & r & -> & H).
    rewrite SCHEDULE_MEETING_pattern in H. accepted H.
    apply plus_accepts in Hcap as [Hd Hdl].
    apply plus_accepts in Hcap0 as [Ht Htl].
    apply star_accepts in Hcap1.
    destruct (last_occurrence "." _ cap1 r (le_n _) eq_refl (le_n _) Hcap1)
      as (room & rest & E & Hroom & Hlast).
    assert (Eq : ("Schedule a meeting on "
                    ++ cap ++ " at " ++ cap0 ++ " in " ++ cap1 ++ ".") ++ r
                 = "Schedule a meeting on " ++ cap ++ " at " ++ cap0 ++ " in "
                     ++ room ++ "." ++ rest).
    { rewrite <- E. now rewrite !append_assoc. }
    rewrite Eq in Hm |- *.
    rewrite (schedule_meeting_match cap cap0 room rest) in Hm by assumption.
    injection Hm as <-.
    exists cap, cap0, room, rest. repeat split; assumption.
  - intros (d & t & room & rest & -> & Hd & Hdl & Ht & Htl & Hroom & Hlast & ->).
    now apply schedule_meeting_match.
Qed.

(** X5: the office-issue pattern matches exactly the queries made of "Report
    office issue ", one digit or more, " for the ", a department on the
    same line and " department."; the department ends at the last
    " department." of the line. *)
Theorem office_issue_pattern_language (q : string) (groups : list (option string)) :
  pattern_match (rule_pattern REPORT_OFFICE_ISSUE) q = Some groups
  <-> exists n dept rest,
      q = "Report office issue " ++ n ++ " for the "
            ++ dept ++ " department." ++ rest
      /\ all_in CDigit n = true /\ 1 <= String.length n
      /\ all_in CAny dept = true
      /\ occurs " department." (first_line rest) = false
      /\ groups = [Some n; Some dept].
Proof.
  split.
  - intros Hm. pose proof Hm as H.
    apply pattern_match_accepts in H as (c & r & -> & H).
    rewrite REPORT_OFFICE_ISSUE_pattern in H. accepted H.
    apply plus_accepts in Hcap as [Hn Hnl].
    apply star_accepts in Hcap0.
    destruct (last_occurrence " department." _ cap0 r (le_n _) eq_refl
                              (le_n_S _ _ (Nat.le_0_l _)) Hcap0)
      as (dept & rest & E & Hdept & Hlast).
    assert (Eq : ("Report office issue " ++ cap ++ " for the "
                    ++ cap0 ++ " department.") ++ r
                 = "Report office issue " ++ cap ++ " for the "
                     ++ dept ++ " department." ++ rest).
    { rewrite <- E. now rewrite !append_assoc. }
    rewrite Eq in Hm |- *.
    rewrite (report_office_issue_match cap dept rest) in Hm by assumption.
    injection Hm as <-.
    exists cap, dept, rest. repeat split; assumption.
  - intros (n & dept & rest & -> & Hn & Hnl & Hdept & Hlast & ->).
    now apply report_office_issue_match.
Qed.

(** ** The five rules do not overlap *)

Lemma matching_rule_head r q g :
  In r FUNCTION_RULES -> pattern_match (rule_pattern r) q = Some g ->
  (r = GET_TICKET_STATUS /\ take 2 q = "Wh")
  \/ (r = SCHEDULE_MEETING /\ take 2 q = "Sc")
  \/ (r = GET_EXPENSE_BALANCE /\ take 2 q = "Sh")
  \/ (r = CALCULATE_PERFORMANCE_BONUS /\ take 2 q = "Ca")
  \/ (r = REPORT_OFFICE_ISSUE /\ take 2 q = "Re").
Proof.
  intros Hr Hm. apply pattern_match_accepts in Hm as (c & rest & -> & H).
  simpl in Hr. destruct Hr as [<-|[<-|[<-|[<-|[<-|[]]]]]].
  - rewrite GET_TICKET_STATUS_pattern in H.
    apply nodes_accept_lit in H as (c' & -> & _). now left.
  - rewrite SCHEDULE_MEETING_pattern in H.
    apply nodes_accept_lit in H as (c' & -> & _). right. now left.
  - rewrite GET_EXPENSE_BALANCE_pattern in H.
    apply nodes_accept_lit in H as (c' & -> & _). right. right. now left.
  - rewrite CALCULATE_PERFORMANCE_BONUS_pattern in H.
    apply nodes_accept_lit in H as (c' & -> & _).
    right. right. right. now left.
  - rewrite REPORT_OFFICE_ISSUE_pattern in H.
    apply nodes_accept_lit in H as (c' & -> & _).
    right. right. right. now right.
Qed.

Lemma matching_rules_coincide q r1 r2 g1 g2 :
  In r1 FUNCTION_RULES -> In r2 FUNCTION_RULES ->
  pattern_match (rule_pattern r1) q = Some g1 ->
  pattern_match (rule_pattern r2) q = Some g2 ->
  r1 = r2.
Proof.
  intros H1 H2 M1 M2.
  pose proof (matching_rule_head r1 q g1 H1 M1) as A.
  pose proof (matching_rule_head r2 q g2 H2 M2) as B.
  destruct A as [[-> A]|[[-> A]|[[-> A]|[[-> A]|[-> A]]]]];
    destruct B as [[-> B]|[[-> B]|[[-> B]|[[-> B]|[-> B]]]]];
    try reflexivity; rewrite A in B; discriminate.
Qed.

(** X6: no query is matched by two of the five patterns: the queries of the
    table are not ambiguous. *)
Theorem rules_are_exclusive (q : string) (r1 r2 : rule)
        (g1 g2 : list (option string)) :
  In r1 FUNCTION_RULES -> In r2 FUNCTION_RULES ->
  pattern_match (rule_pattern r1) q = Some g1 ->
  pattern_match (rule_pattern r2) q = Some g2 ->
  r1 = r2 /\ g1 = g2.
Proof.
  intros H1 H2 M1 M2.
  assert (E : r1 = r2) by exact (matching_rules_coincide q r1 r2 g1 g2 H1 H2 M1 M2).
  subst r2. split; [reflexivity | congruence].
Qed.

Lemma rules_are_exclusive_witness :
  GET_TICKET_STATUS = GET_TICKET_STATUS /\ [Some "83742"] = [Some "83742"].
Proof.
  apply (rules_are_exclusive "What is the status of ticket 83742?"
           GET_TICKET_STATUS GET_TICKET_STATUS [Some "83742"] [Some "83742"]);
    try reflexivity; simpl; auto.
Defined.

(** In a table where at most one rule matches the query, the answer is
    that of the rule that matches, wherever it stands. *)
Lemma scan_unique rules q pattern func_name arg_names arg_types groups :
  (forall r1 r2 g1 g2,
      In r1 rules -> In r2 rules ->
      pattern_match (rule_pattern r1) q = Some g1 ->
      pattern_match (rule_pattern r2) q = Some g2 -> r1 = r2) ->
  In (pattern, func_name, arg_names, arg_types) rules ->
  pattern_match pattern q = Some groups ->
  scan rules q = on_match func_name arg_names arg_types groups.
Proof.
  intros Huniq Hin Hm.
  destruct (scan_inv rules q)
    as [[_ Hnone] | (pre & post & p & f & ns & ts & g & E & _ & Hm' & Hs)].
  - specialize (Hnone _ Hin). unfold rule_pattern in Hnone; simpl in Hnone.
    congruence.
  - assert (Hin' : In (p, f, ns, ts) rules).
    { rewrite E. apply in_or_app. right. now left. }
    assert (Heq : (p, f, ns, ts) = (pattern, func_name, arg_names, arg_types))
      by exact (Huniq _ _ g groups Hin' Hin Hm' Hm).
    injection Heq as -> -> -> ->. congruence.
Qed.

(** X7: the five rules can stand in any order: the handler answers every query
    the same way. *)
Theorem default_order_is_immaterial (rules : list rule) (q : option string) :
  Permutation rules FUNCTION_RULES ->
  execute_query_with rules q = execute_query q.
Proof.
  intros Hperm. destruct q as [q|]; [|reflexivity].
  unfold execute_query, execute_query_with.
  destruct (scan_inv FUNCTION_RULES q)
    as [[H404 Hnone] | (pre & post & p & f & ns & ts & g & E & _ & Hm & Hs)].
  - rewrite H404. apply scan_no_match.
    intros r Hr. apply Hnone. now apply (Permutation_in r Hperm).
  - rewrite Hs.
    assert (Hin : In (p, f, ns, ts) FUNCTION_RULES).
    { rewrite E. apply in_or_app. right. now left. }
    apply scan_unique with (pattern := p); [| |exact Hm].
    + intros r1 r2 g1 g2 H1 H2 M1 M2.
      apply (Permutation_in _ Hperm) in H1, H2.
      exact (matching_rules_coincide q r1 r2 g1 g2 H1 H2 M1 M2).
    + apply (Permutation_in _ (Permutation_sym Hperm)). exact Hin.
Qed.

Lemma default_order_is_immaterial_witness :
  execute_query_with (rev FUNCTION_RULES)
    (Some "Report office issue 45321 for the Facilities department.")
  = execute_query
      (Some "Report office issue 45321 for the Facilities department.").
Proof.
  apply (default_order_is_immaterial (rev FUNCTION_RULES)).
  apply Permutation_sym, Permutation_rev.
Defined.

(** ** When each error is the answer *)

Lemma on_match_not_404 func_name arg_names arg_types groups :
  on_match func_name arg_names arg_types groups
  <> HTTPException 404 "No matching function found for the query".
Proof.
  unfold on_match.
  destruct (fill_arguments 0 arg_names arg_types groups []) as [d|[| |]];
    discriminate.
Qed.

(** X8: the answer to a query is 404 "No matching function found for the
    query" exactly when no pattern of the table matches it: a rule that
    matches never leads to this answer. *)
Theorem not_found_iff (rules : list rule) (q : string) :
  execute_query_with rules (Some q)
  = HTTPException 404 "No matching function found for the query"
  <-> forall r, In r rules -> pattern_match (rule_pattern r) q = None.
Proof.
  split; [|apply scan_no_match]. simpl. intros H.
  destruct (scan_inv rules q)
    as [[_ Hnone] | (pre & post & p & f & ns & ts & g & _ & _ & _ & Hs)];
    [exact Hnone|].
  rewrite Hs in H. now apply on_match_not_404 in H.
Qed.

Lemma fill_arguments_inr names : forall i arg_types groups d e,
  fill_arguments i names arg_types groups d = inr e ->
  exists j, j < length names
            /\ (nth_error arg_types (i + j) = None
                \/ nth_error groups (i + j) = None
                \/ exists f v e', nth_error arg_types (i + j) = Some f
                                  /\ nth_error groups (i + j) = Some v
                                  /\ call f v = inr e').
Proof.
  induction names as [|name names IH]; intros i arg_types groups d e; simpl;
    [discriminate|].
  destruct (nth_error arg_types i) as [f|] eqn:Hf.
  2:{ intros _. exists 0. rewrite Nat.add_0_r. split; [lia | now left]. }
  destruct (nth_error groups i) as [v|] eqn:Hv.
  2:{ intros _. exists 0. rewrite Nat.add_0_r. split; [lia | right; now left]. }
  destruct (call f v) as [x|e'] eqn:Hc.
  - intros H. apply IH in H as (j & Hj & H). exists (S j).
    rewrite Nat.add_succ_r. split; [lia | exact H].
  - intros _. exists 0. rewrite Nat.add_0_r. split; [lia|].
    right. right. now exists f, v, e'.
Qed.

Lemma call_raises f v e :
  call f v = inr e -> e = ValueError \/ e = TypeError.
Proof.
  destruct f, v as [s|]; simpl; try discriminate.
  - unfold int_of_str.
    repeat match goal with
           | |- context [match ?x with _ => _ end] => destruct x
           end; intros [= <-]; now left.
  - intros [= <-]. now right.
Qed.




(** ** The answers to the three queries with numbers only *)

Lemma call_int_digits v :
  all_in CDigit v = true -> 1 <= String.length v ->
  call py_int (Some v)
  = if (4300 <? String.length v)%nat then inr ValueError
                  else inl (PyInt (decimal_value v 0)).
Proof.
  intros Hall Hlen. simpl. rewrite int_of_str_digits by assumption.
  destruct (Nat.ltb_spec 4300 (String.length v)).
  - now rewrite too_many_digits_gt.
  - now rewrite too_many_digits_le.
Qed.

Ltac skip_rules :=
  lazymatch goal with
  | |- forall r, In r _ -> _ =>
      let r := fresh "r" in
      let Hr := fresh "Hr" in
      intros r Hr; simpl in Hr;
      repeat (destruct Hr as [<-|Hr];
              [first [ rewrite GET_TICKET_STATUS_pattern
                     | rewrite SCHEDULE_MEETING_pattern
                     | rewrite GET_EXPENSE_BALANCE_pattern
                     | rewrite CALCULATE_PERFORMANCE_BONUS_pattern
                     | rewrite REPORT_OFFICE_ISSUE_pattern ];
               now apply other_start|]);
      destruct Hr
  end.

Lemma ticket_scan d rest :
  all_in CDigit d = true -> 1 <= String.length d ->
  execute_query (Some ("What is the status of ticket " ++ d ++ "?" ++ rest))
  = on_match "get_ticket_status" ["ticket_id"] [py_int] [Some d].
Proof.
  intros Hd Hlen.
  unfold execute_query, execute_query_with, FUNCTION_RULES.
  change (scan ?l ?s) with (scan ([] ++ l) s) at 1.
  unfold GET_TICKET_STATUS at 1.
  rewrite scan_first_match with (groups := [Some d]);
    [reflexivity | skip_rules | now apply ticket_status_match].
Qed.

(** X10: a ticket query with any number and any text after the question mark:
    the answer carries the number as an integer when it has at most 4300
    digits, and is 400 "Parameter type mismatch" when it has more. *)
Theorem ticket_answer (d rest : string) :
  all_in CDigit d = true -> 1 <= String.length d ->
  execute_query (Some ("What is the status of ticket " ++ d ++ "?" ++ rest))
  = if (4300 <? String.length d)%nat
    then HTTPException 400 "Parameter type mismatch"
    else Return [("name", PyStr "get_ticket_status");
                 ("arguments",
                  PyStr (Json.dumps [("ticket_id", PyInt (decimal_value d 0))]))].
Proof.
  intros Hd Hlen. rewrite ticket_scan by assumption.
  unfold on_match, fill_arguments, nth_error.
  rewrite call_int_digits by assumption.
  now destruct (4300 <? String.length d)%nat.
Qed.

Lemma ticket_answer_witness :
  execute_query
    (Some ("What is the status of ticket " ++ "0083742" ++ "?" ++ "!"))
  = if (4300 <? String.length "0083742")%nat
    then HTTPException 400 "Parameter type mismatch"
    else Return [("name", PyStr "get_ticket_status");
                 ("arguments",
                  PyStr (Json.dumps
                           [("ticket_id", PyInt (decimal_value "0083742" 0))]))].
Proof.
  apply (ticket_answer "0083742" "!"); [reflexivity | simpl; lia].
Defined.

(** X11: an expense query with any employee number and any text after the
    period: the answer carries the number as an integer when it has at
    most 4300 digits, and is 400 "Parameter type mismatch" when it has
    more. *)
Theorem expense_answer (n rest : string) :
  all_in CDigit n = true -> 1 <= String.length n ->
  execute_query
    (Some ("Show my expense balance for employee " ++ n ++ "." ++ rest))
  = if (4300 <? String.length n)%nat
    then HTTPException 400 "Parameter type mismatch"
    else Return [("name", PyStr "get_expense_balance");
                 ("arguments",
                  PyStr (Json.dumps [("employee_id", PyInt (decimal_value n 0))]))].
Proof.
  intros Hn Hlen.
  unfold execute_query, execute_query_with, FUNCTION_RULES.
  change (scan (?a :: ?b :: ?l) ?s) with (scan ([a; b] ++ l) s).
  unfold GET_EXPENSE_BALANCE at 1.
  rewrite scan_first_match with (groups := [Some n]);
    [| skip_rules | now apply expense_balance_match].
  unfold on_match, fill_arguments, nth_error.
  rewrite call_int_digits by assumption.
  now destruct (4300 <? String.length n)%nat.
Qed.

Lemma expense_answer_witness :
  execute_query
    (Some ("Show my expense balance for employee " ++ "10056" ++ "."
             ++ " Thanks."))
  = if (4300 <? String.length "10056")%nat
    then HTTPException 400 "Parameter type mismatch"
    else Return [("name", PyStr "get_expense_balance");
                 ("arguments",
                  PyStr (Json.dumps
                           [("employee_id", PyInt (decimal_value "10056" 0))]))].
Proof.
  apply (expense_answer "10056" " Thanks."); [reflexivity | simpl; lia].
Defined.

(** X12: a bonus query with any employee number, a year of four digits and any
    text after the period: the answer carries both as integers, in the
    order employee_id, current_year, when the employee number has at most
    4300 digits, and is 400 "Parameter type mismatch" when it has more. *)
Theorem bonus_answer (n year rest : string) :
  all_in CDigit n = true -> 1 <= String.length n ->
  all_in CDigit year = true -> String.length year = 4 ->
  execute_query
    (Some ("Calculate performance bonus for employee " ++ n ++ " for "
             ++ year ++ "." ++ rest))
  = if (4300 <? String.length n)%nat
    then HTTPException 400 "Parameter type mismatch"
    else Return [("name", PyStr "calculate_performance_bonus");
                 ("arguments",
                  PyStr (Json.dumps
                           [("employee_id", PyInt (decimal_value n 0));
                            ("current_year", PyInt (decimal_value year 0))]))].
Proof.
  intros Hn Hlen Hy Hylen.
  unfold execute_query, execute_query_with, FUNCTION_RULES.
  change (scan (?a :: ?b :: ?c :: ?l) ?s) with (scan ([a; b; c] ++ l) s).
  unfold CALCULATE_PERFORMANCE_BONUS at 1.
  rewrite scan_first_match with (groups := [Some n; Some year]);
    [| skip_rules | now apply performance_bonus_match].
  unfold on_match, fill_arguments, nth_error.
  rewrite call_int_digits by assumption.
  destruct (4300 <? String.length n)%nat; [reflexivity|].
  rewrite call_int_digits by (assumption || lia).
  now rewrite Hylen.
Qed.

Lemma bonus_answer_witness :
  execute_query
    (Some ("Calculate performance bonus for employee " ++ "10056" ++ " for "
             ++ "2025" ++ "." ++ EmptyString))
  = if (4300 <? String.length "10056")%nat
    then HTTPException 400 "Parameter type mismatch"
    else Return [("name", PyStr "calculate_performance_bonus");
                 ("arguments",
                  PyStr (Json.dumps
                           [("employee_id", PyInt (decimal_value "10056" 0));
                            ("current_year", PyInt (decimal_value "2025" 0))]))].
Proof.
  apply (bonus_answer "10056" "2025" EmptyString);
    reflexivity || (simpl; lia).
Defined.

(** ** The text of a number in the answer *)

Lemma digit_cases c :
  is_digit c = true ->
  In c ["0"; "1"; "2"; "3"; "4"; "5"; "6"; "7"; "8"; "9"]%char.
Proof.
  unfold is_digit, ord. intros H. apply andb_prop in H as [H1 H2].
  apply Nat.leb_le in H1. apply Nat.leb_le in H2.
  rewrite <- (ascii_nat_embedding c).
  assert (E : nat_of_ascii c = 48 \/ nat_of_ascii c = 49
              \/ nat_of_ascii c = 50 \/ nat_of_ascii c = 51
              \/ nat_of_ascii c = 52 \/ nat_of_ascii c = 53
              \/ nat_of_ascii c = 54 \/ nat_of_ascii c = 55
              \/ nat_of_ascii c = 56 \/ nat_of_ascii c = 57) by lia.
  simpl.
  repeat (destruct E as [->|E]; [tauto|]). rewrite E. tauto.
Qed.

Lemma decimal_value_acc s : forall acc,
  decimal_value s acc
  = (acc * 10 ^ Z.of_nat (String.length s) + decimal_value s 0)%Z.
Proof.
  induction s as [|c s IH]; intros acc; cbn [decimal_value String.length].
  - simpl. lia.
  - rewrite (IH (acc * 10 + _)%Z), (IH (0 * 10 + _)%Z).
    rewrite Nat2Z.inj_succ, Z.pow_succ_r by lia. lia.
Qed.

(** The digits of a query as a decimal numeral: the same digits, and the
    same number. *)
Lemma digits_numeral s :
  all_in CDigit s = true ->
  exists u, NilEmpty.uint_of_string s = Some u
            /\ DecimalPos.Unsigned.usize u = N.of_nat (String.length s)
            /\ decimal_value s 0
               = Z.of_N (DecimalPos.Unsigned.of_lu (Decimal.rev u)).
Proof.
  induction s as [|c s IH]; simpl all_in.
  - intros _. now exists Decimal.Nil.
  - intros H. apply andb_prop in H as [Hc Hs].
    destruct (IH Hs) as (u & Hu & Hsize & Hval).
    simpl NilEmpty.uint_of_string. rewrite Hu.
    cbn [decimal_value String.length]. rewrite decimal_value_acc, Hval.
    assert (Hpow : (10 ^ Z.of_nat (String.length s))%Z
                   = Z.of_N (10 ^ DecimalPos.Unsigned.usize u)).
    { rewrite Hsize, N2Z.inj_pow, nat_N_Z. reflexivity. }
    rewrite Hpow, Nnat.Nat2N.inj_succ, <- Hsize.
    apply digit_cases in Hc. simpl in Hc.
    repeat (destruct Hc as [<-|Hc];
            [eexists; split; [reflexivity|]; split; [reflexivity|];
             match goal with
             | |- context [Decimal.rev (?D u)] =>
                 change (Decimal.rev (D u))
                   with (Decimal.revapp u (D Decimal.Nil));
                 rewrite (DecimalPos.Unsigned.of_lu_revapp u (D Decimal.Nil))
             end;
             rewrite N2Z.inj_add, N2Z.inj_mul;
             generalize (Z.of_N (10 ^ DecimalPos.Unsigned.usize u));
             generalize (Z.of_N (DecimalPos.Unsigned.of_lu (Decimal.rev u)));
             intros a b; vm_compute Z.of_nat; vm_compute Z.of_N; lia|]).
    destruct Hc.
Qed.

Lemma strip_zeros_numeral s : forall u,
  NilEmpty.uint_of_string s = Some u ->
  NilEmpty.string_of_uint (Decimal.nzhead u) = strip_zeros s.
Proof.
  induction s as [|c s IH]; intros u; simpl NilEmpty.uint_of_string.
  - now intros [= <-].
  - destruct (NilEmpty.uint_of_string s) as [u'|] eqn:Hu; [|discriminate].
    intros Hc. simpl strip_zeros.
    destruct (Ascii.eqb_spec c "0") as [->|Hne].
    + injection Hc as <-. simpl. now apply IH.
    + assert (Hs : NilEmpty.uint_of_string (String c s) = Some u)
        by (simpl; now rewrite Hu).
      apply NilEmpty.sus in Hs. rewrite <- Hs.
      destruct u; try reflexivity.
      exfalso. apply Hne. simpl in Hs. now injection Hs.
Qed.

(** [json.dumps] writes the number [int] made of a run of digits as these
    digits without their leading zeros. *)
Lemma encode_int_digits s :
  all_in CDigit s = true ->
  Json.encode_int (decimal_value s 0) = canonical s.
Proof.
  intros Hs. destruct (digits_numeral s Hs) as (u & Hu & _ & Hval).
  unfold Json.encode_int. rewrite Hval.
  rewrite <- DecimalPos.Unsigned.of_uint_alt.
  change (Z.of_N (Pos.of_uint u)) with (Z.of_int (Decimal.Pos u)).
  rewrite DecimalZ.to_of. simpl Decimal.norm.
  unfold canonical. rewrite <- (strip_zeros_numeral s u Hu).
  unfold Decimal.unorm. now destruct (Decimal.nzhead u).
Qed.

Lemma only_chars_digits s :
  only_chars "0123456789" s = true -> all_in CDigit s = true.
Proof.
  induction s as [|c s IH]; [reflexivity|].
  cbn [only_chars all_in]. intros H. apply andb_prop in H as [Hc Hs].
  rewrite (IH Hs), andb_true_r.
  apply existsb_exists in Hc as (x & Hx & E).
  apply Ascii.eqb_eq in E. subst x. simpl in Hx.
  repeat (destruct Hx as [<-|Hx]; [reflexivity|]). destruct Hx.
Qed.

(** X14: a ticket number written with the ASCII digits 0 to 9, at most 4300
    of them, comes out in the answer as these digits without leading
    zeros: the "arguments" string is the ticket_id key followed by these
    digits, with no quotes around them. *)
Theorem number_text_in_answer (d rest : string) :
  only_chars "0123456789" d = true -> 1 <= String.length d ->
  String.length d <= 4300 ->
  execute_query (Some ("What is the status of ticket " ++ d ++ "?" ++ rest))
  = Return [("name", PyStr "get_ticket_status");
            ("arguments",
             PyStr ("{" ++ quoted "ticket_id" ++ ": " ++ canonical d ++ "}"))].
Proof.
  intros Hd Hlen Hshort. apply only_chars_digits in Hd.
  rewrite ticket_scan by assumption.
  unfold on_match, fill_arguments, nth_error.
  rewrite call_int_digits by assumption.
  destruct (Nat.ltb_spec 4300 (String.length d)); [lia|].
  unfold Json.dumps, Json.encode_item.
  cbn [setitem map Json.join fst snd Json.encode].
  rewrite encode_int_digits by assumption. reflexivity.
Qed.

Lemma number_text_in_answer_witness :
  execute_query
    (Some ("What is the status of ticket " ++ "0083742" ++ "?" ++ EmptyString))
  = Return [("name", PyStr "get_ticket_status");
            ("arguments",
             PyStr ("{" ++ quoted "ticket_id" ++ ": " ++ "83742" ++ "}"))].
Proof.
  apply (number_text_in_answer "0083742" EmptyString);
    reflexivity || (simpl; lia).
Defined.

Lemma decimal_value_zeros k d :
  decimal_value (replicate k "0" ++ d) 0 = decimal_value d 0.
Proof. induction k as [|k IH]; [reflexivity | exact IH]. Qed.

Lemma all_in_zeros k : all_in CDigit (replicate k "0") = true.
Proof. induction k as [|k IH]; [reflexivity | exact IH]. Qed.

Lemma length_replicate k c : String.length (replicate k c) = k.
Proof. induction k as [|k IH]; simpl; [reflexivity | now rewrite IH]. Qed.

(** X15: zeros in front of a ticket number change nothing: the query is
    answered as the one without them, as long as the digits with the zeros
    are at most 4300. *)
Theorem leading_zeros_are_dropped (k : nat) (d rest : string) :
  all_in CDigit d = true -> 1 <= String.length d ->
  k + String.length d <= 4300 ->
  execute_query
    (Some ("What is the status of ticket "
             ++ (replicate k "0" ++ d) ++ "?" ++ rest))
  = execute_query
      (Some ("What is the status of ticket " ++ d ++ "?" ++ rest)).
Proof.
  intros Hd Hlen Hshort.
  assert (Hz : all_in CDigit (replicate k "0" ++ d) = true)
    by now rewrite all_in_append, all_in_zeros, Hd.
  assert (Hzl : String.length (replicate k "0" ++ d) = k + String.length d)
    by now rewrite length_append, length_replicate.
  rewrite !ticket_scan by (assumption || lia).
  unfold on_match, fill_arguments, nth_error.
  rewrite !call_int_digits by (assumption || lia).
  rewrite Hzl, decimal_value_zeros.
  destruct (Nat.ltb_spec 4300 (k + String.length d)); [lia|].
  now destruct (Nat.ltb_spec 4300 (String.length d)); [lia|].
Qed.

Lemma leading_zeros_are_dropped_witness :
  execute_query
    (Some ("What is the status of ticket "
             ++ (replicate 3 "0" ++ "7") ++ "?" ++ EmptyString))
  = execute_query
      (Some ("What is the status of ticket " ++ "7" ++ "?" ++ EmptyString)).
Proof.
  apply (leading_zeros_are_dropped 3 "7" EmptyString);
    reflexivity || (simpl; lia).
Defined.

(** ** Backtracking finds a match when there is one *)

Lemma count_all_in cls hi c r :
  all_in cls c = true ->
  match hi with Some h => String.length c <= h | None => True end ->
  String.length c <= count cls hi (c ++ r).
Proof.
  revert hi; induction c as [|x c IH]; intros hi Hall Hhi; simpl; [lia|].
  simpl in Hall. apply andb_prop in Hall as [Hx Hc]. rewrite Hx.
  destruct hi as [[|h]|]; simpl in *; try lia.
  - specialize (IH (Some h) Hc). simpl in IH. lia.
  - specialize (IH None Hc I). simpl in IH. lia.
Qed.

Section Complete.
Context {A : Type}.

Lemma match_atom_complete a c r (k : string -> string -> option A) res :
  atom_accepts a c -> k c r = Some res ->
  exists res', match_atom a (c ++ r) k = Some res'.
Proof.
  destruct a as [cls|cls lo hi]; simpl.
  - intros (x & -> & Hx) Hk. simpl. rewrite Hx. now exists res.
  - intros (Hall & Hlo & Hhi) Hk.
    apply give_back_is_some with (m := String.length c) (res := res).
    + split; [exact Hlo | now apply count_all_in].
    + now rewrite take_length_append, drop_length_append.
Qed.

Lemma match_atoms_complete l : forall c r (k : string -> string -> option A) res,
  atoms_accept l c -> k c r = Some res ->
  exists res', match_atoms l (c ++ r) k = Some res'.
Proof.
  induction l as [|a l IH]; intros c r k res; simpl.
  - intros -> Hk. now exists res.
  - intros (c1 & c2 & -> & Ha & Hl) Hk. rewrite append_assoc.
    destruct (IH c2 r (fun c2' r2 => k (c1 ++ c2') r2) res Hl Hk) as [res1 H1].
    exact (match_atom_complete a c1 (c2 ++ r) _ res1 Ha H1).
Qed.

Lemma match_nodes_complete p : forall c r caps groups
    (k : list (option string) -> string -> option A) res,
  nodes_accept p c caps -> k (groups ++ caps)%list r = Some res ->
  exists res', match_nodes p (c ++ r) groups k = Some res'.
Proof.
  induction p as [|[a|body|body] p IH]; intros c r caps groups k res; simpl.
  - intros [-> ->] Hk. rewrite app_nil_r in Hk. now exists res.
  - intros (c1 & c2 & -> & Ha & Hp) Hk. rewrite append_assoc.
    destruct (IH c2 r caps groups k res Hp Hk) as [res1 H1].
    exact (match_atom_complete a c1 (c2 ++ r) _ res1 Ha H1).
  - intros (c1 & c2 & caps' & -> & -> & Hb & Hp) Hk. rewrite append_assoc.
    destruct (IH c2 r caps' (groups ++ [Some c1])%list k res Hp) as [res1 H1].
    { now rewrite <- app_assoc. }
    exact (match_atoms_complete body c1 (c2 ++ r) _ res1 Hb H1).
  - intros [(c1 & c2 & caps' & -> & -> & Hb & Hp) | (caps' & -> & Hp)] Hk.
    + rewrite append_assoc.
      destruct (IH c2 r caps' (groups ++ [Some c1])%list k res Hp)
        as [res1 H1].
      { now rewrite <- app_assoc. }
      destruct (match_atoms_complete
                  body c1 (c2 ++ r)
                  (fun d r' => match_nodes p r' (groups ++ [Some d])%list k)
                  res1 Hb H1) as [res2 ->].
      now exists res2.
    + destruct (match_atoms body (c ++ r) _) as [res1|]; [now exists res1|].
      apply (IH c r caps' (groups ++ [None])%list k res Hp).
      now rewrite <- app_assoc.
Qed.
End Complete.

(** X16: what [pattern.match] returns is the captures of a text at the
    start of the query that the pattern accepts with these captures, and it
    returns a match whenever the query starts with a text the pattern
    accepts: the greedy search with its backtracking misses no match. *)
Theorem pattern_match_finds_a_match (p : regex) (q : string) :
  (forall groups,
      pattern_match p q = Some groups ->
      exists c r, q = c ++ r /\ nodes_accept p c groups)
  /\ ((exists c r caps, q = c ++ r /\ nodes_accept p c caps) ->
      exists groups c' r',
        pattern_match p q = Some groups
        /\ q = c' ++ r' /\ nodes_accept p c' groups).
Proof.
  split.
  - intros groups H. now apply pattern_match_accepts.
  - intros (c & r & caps & -> & H).
    destruct (match_nodes_complete p c r caps [] (fun g _ => Some g) caps H
                                   eq_refl) as [groups Hg].
    exists groups.
    destruct (pattern_match_accepts _ _ _ Hg) as (c' & r' & E & H').
    now exists c', r'.
Qed.

(** ** The dictionary the loop fills *)

Lemma getitem_setitem_eq d k v : getitem (setitem d k v) k = Some v.
Proof.
  induction d as [|[k' v'] d IH]; simpl.
  - now rewrite String.eqb_refl.
  - destruct (String.eqb k' k) eqn:E; simpl; rewrite E; [reflexivity | exact IH].
Qed.

Lemma getitem_setitem_ne d k v k' :
  k <> k' -> getitem (setitem d k v) k' = getitem d k'.
Proof.
  intros Hne. induction d as [|[k0 v0] d IH]; simpl.
  - apply String.eqb_neq in Hne. now rewrite Hne.
  - destruct (String.eqb_spec k0 k) as [->|Hk]; simpl.
    + apply String.eqb_neq in Hne. now rewrite Hne.
    + now rewrite IH.
Qed.

Lemma fill_arguments_other names : forall i arg_types groups d d' name,
  fill_arguments i names arg_types groups d = inl d' ->
  ~ In name names -> getitem d' name = getitem d name.
Proof.
  induction names as [|n names IH]; intros i arg_types groups d d' name; simpl.
  - now intros [= <-].
  - destruct (nth_error arg_types i) as [f|]; [|discriminate].
    destruct (nth_error groups i) as [v|]; [|discriminate].
    destruct (call f v) as [x|e]; [|discriminate].
    intros H Hnot. rewrite (IH _ _ _ _ _ name H) by tauto.
    apply getitem_setitem_ne. tauto.
Qed.

Lemma fill_arguments_binds names : forall i arg_types groups d d' j name,
  fill_arguments i names arg_types groups d = inl d' ->
  nth_error names j = Some name ->
  (forall j', j < j' -> nth_error names j' <> Some name) ->
  exists f v x, nth_error arg_types (i + j) = Some f
                /\ nth_error groups (i + j) = Some v
                /\ call f v = inl x
                /\ getitem d' name = Some x.
Proof.
  induction names as [|n names IH]; intros i arg_types groups d d' j name;
    simpl; [now destruct j|].
  destruct (nth_error arg_types i) as [f|] eqn:Hf; [|discriminate].
  destruct (nth_error groups i) as [v|] eqn:Hv; [|discriminate].
  destruct (call f v) as [x|e] eqn:Hc; [|discriminate].
  intros H Hj Hlast. destruct j as [|j]; simpl in Hj.
  - injection Hj as ->. rewrite Nat.add_0_r.
    exists f, v, x. repeat split; try assumption.
    rewrite (fill_arguments_other _ _ _ _ _ _ name H).
    + apply getitem_setitem_eq.
    + intros Hin. apply In_nth_error in Hin as [j' Hj'].
      apply (Hlast (S j')); [lia | exact Hj'].
  - rewrite Nat.add_succ_r.
    apply (IH (S i) _ _ _ _ j name H Hj).
    intros j' Hlt. apply (Hlast (S j')). lia.
Qed.

(** X17: after the loop each argument name is bound to the coercion of the
    capture at its position; a name that is repeated is bound to the
    coercion at its last position. *)
Theorem arguments_hold_the_coerced_captures
        (arg_names : list string) (arg_types : list callable)
        (groups : list (option string)) (arguments : dict) (i : nat) (name : string) :
  fill_arguments 0 arg_names arg_types groups [] = inl arguments ->
  nth_error arg_names i = Some name ->
  (forall j, i < j -> nth_error arg_names j <> Some name) ->
  exists f v x, nth_error arg_types i = Some f
                /\ nth_error groups i = Some v
                /\ call f v = inl x
                /\ getitem arguments name = Some x.
Proof.
  intros H Hi Hlast.
  exact (fill_arguments_binds _ 0 _ _ _ _ i name H Hi Hlast).
Qed.

Lemma arguments_hold_the_coerced_captures_witness :
  exists f v x, nth_error [py_str; py_int] 1 = Some f
                /\ nth_error [Some "7"; Some "42"] 1 = Some v
                /\ call f v = inl x
                /\ getitem [("n", PyInt 42)] "n" = Some x.
Proof.
  apply (arguments_hold_the_coerced_captures
           ["n"; "n"] [py_str; py_int] [Some "7"; Some "42"] [("n", PyInt 42)] 1 "n").
  - reflexivity.
  - reflexivity.
  - intros [|[|[|j]]] Hj; simpl; try lia; discriminate.
Defined.

Lemma fill_arguments_surplus names : forall i arg_types groups d d' ts gs,
  fill_arguments i names arg_types groups d = inl d' ->
  fill_arguments i names (arg_types ++ ts) (groups ++ gs) d = inl d'.
Proof.
  induction names as [|n names IH]; intros i arg_types groups d d' ts gs;
    simpl; [trivial|].
  destruct (nth_error arg_types i) as [f|] eqn:Hf; [|discriminate].
  destruct (nth_error groups i) as [v|] eqn:Hv; [|discriminate].
  destruct (call f v) as [x|e] eqn:Hc; [|discriminate].
  intros H.
  rewrite (nth_error_app1 _ ts), Hf
    by (apply nth_error_Some; congruence).
  rewrite (nth_error_app1 _ gs), Hv
    by (apply nth_error_Some; congruence).
  rewrite Hc. now apply IH.
Qed.

(** X18: captures and types beyond the argument names are ignored: a rule with
    more groups than names is answered as if the groups after the last
    name were not there. *)
Theorem surplus_captures_are_ignored
        (func_name : string) (arg_names : list string)
        (arg_types more_types : list callable)
        (groups more_groups : list (option string)) (body : dict) :
  on_match func_name arg_names arg_types groups = Return body ->
  on_match func_name arg_names (arg_types ++ more_types)
           (groups ++ more_groups)
  = Return body.
Proof.
  unfold on_match.
  destruct (fill_arguments 0 arg_names arg_types groups []) as [d|[| |]] eqn:E;
    try discriminate.
  intros H. now rewrite (fill_arguments_surplus _ _ _ _ _ _ _ _ E).
Qed.

Lemma surplus_captures_are_ignored_witness :
  on_match "get_ticket_status" ["ticket_id"] ([py_int] ++ [py_int])
           ([Some "83742"] ++ [Some "not a number"])
  = Return [("name", PyStr "get_ticket_status");
            ("arguments", PyStr (Json.dumps [("ticket_id", PyInt 83742)]))].
Proof.
  apply (surplus_captures_are_ignored
           "get_ticket_status" ["ticket_id"] [py_int] [py_int]
           [Some "83742"] [Some "not a number"]).
  reflexivity.
Defined.

(** ** Queries that start otherwise *)

(** X19: a query that starts with none of the five opening texts is answered
    404: the texts are compared as they stand, with their capitals and
    without skipping white space. *)
Theorem unknown_start_is_not_found (q : string) :
  starts_with "What is the status of ticket " q = false ->
  starts_with "Schedule a meeting on " q = false ->
  starts_with "Show my expense balance for employee " q = false ->
  starts_with "Calculate performance bonus for employee " q = false ->
  starts_with "Report office issue " q = false ->
  execute_query (Some q)
  = HTTPException 404 "No matching function found for the query".
Proof.
  intros H1 H2 H3 H4 H5.
  unfold execute_query, execute_query_with. apply scan_no_match.
  unfold FUNCTION_RULES. skip_rules.
Qed.

Lemma unknown_start_is_not_found_witness :
  execute_query (Some " what is the status of ticket 83742?")
  = HTTPException 404 "No matching function found for the query".
Proof.
  apply (unknown_start_is_not_found " what is the status of ticket 83742?");
    reflexivity.
Defined.

(** ** Numbers of the wrong length *)

Lemma append_inv_head a b c : a ++ b = a ++ c -> b = c.
Proof.
  induction a as [|x a IH]; simpl; [trivial|]. intros [= H]. now apply IH.
Qed.

(** A run of characters of a class that stops at a character outside the
    class is determined by the text it starts. *)
Lemma run_unique cls : forall a a' b b',
  all_in cls a = true -> all_in cls a' = true ->
  stops cls b = true -> stops cls b' = true ->
  a ++ b = a' ++ b' -> a = a' /\ b = b'.
Proof.
  induction a as [|x a IH]; intros [|y a'] b b' Ha Ha' Hb Hb' E; simpl in *.
  - now split.
  - subst b. simpl in Hb. apply andb_prop in Ha' as [Hy _].
    rewrite Hy in Hb. discriminate.
  - subst b'. simpl in Hb'. apply andb_prop in Ha as [Hx _].
    rewrite Hx in Hb'. discriminate.
  - injection E as -> E.
    apply andb_prop in Ha as [_ Ha]. apply andb_prop in Ha' as [_ Ha'].
    destruct (IH a' b b' Ha Ha' Hb Hb' E) as [-> ->]. now split.
Qed.

(** X20: a bonus query whose year has not exactly four digits is not
    recognised: the answer is 404, for a year of two digits as for one of
    five. *)
Theorem wrong_year_length_is_not_found (n year rest : string) :
  all_in CDigit n = true -> 1 <= String.length n ->
  all_in CDigit year = true -> String.length year <> 4 ->
  execute_query
    (Some ("Calculate performance bonus for employee " ++ n ++ " for "
             ++ year ++ "." ++ rest))
  = HTTPException 404 "No matching function found for the query".
Proof.
  intros Hn Hlen Hy Hylen.
  unfold execute_query, execute_query_with. apply scan_no_match.
  intros r Hr. simpl in Hr. destruct Hr as [<-|[<-|[<-|[<-|[<-|[]]]]]].
  - rewrite GET_TICKET_STATUS_pattern. now apply other_start.
  - rewrite SCHEDULE_MEETING_pattern. now apply other_start.
  - rewrite GET_EXPENSE_BALANCE_pattern. now apply other_start.
  - destruct (pattern_match _ _) as [g|] eqn:Hm; [exfalso | reflexivity].
    apply pattern_match_accepts in Hm as (c & r & E & H).
    rewrite CALCULATE_PERFORMANCE_BONUS_pattern in H. accepted H.
    apply plus_accepts in Hcap as [Hcap _].
    apply exactly_accepts in Hcap0 as [Hcap0 Hfour].
    rewrite !append_assoc in E. apply append_inv_head in E.
    apply run_unique with (cls := CDigit) in E as [<- E];
      [|assumption|assumption|reflexivity|reflexivity].
    apply (append_inv_head " for ") in E.
    apply run_unique with (cls := CDigit) in E as [<- _];
      [|assumption|assumption|reflexivity|reflexivity].
    contradiction.
  - rewrite REPORT_OFFICE_ISSUE_pattern. now apply other_start.
Qed.

Lemma wrong_year_length_is_not_found_witness :
  execute_query
    (Some ("Calculate performance bonus for employee " ++ "10056" ++ " for "
             ++ "20256" ++ "." ++ EmptyString))
  = HTTPException 404 "No matching function found for the query".
Proof.
  apply (wrong_year_length_is_not_found "10056" "20256" EmptyString);
    try reflexivity; simpl; lia.
Defined.

(** X13: an office-issue query with any issue number: the answer carries the
    number as an integer and the department as it stands when the number
    has at most 4300 digits, and is 400 "Parameter type mismatch" when it
    has more. *)
Theorem office_issue_answer (n dept rest : string) :
  all_in CDigit n = true -> 1 <= String.length n ->
  all_in CAny dept = true ->
  occurs " department." (first_line rest) = false ->
  execute_query
    (Some ("Report office issue " ++ n ++ " for the "
             ++ dept ++ " department." ++ rest))
  = if (4300 <? String.length n)%nat
    then HTTPException 400 "Parameter type mismatch"
    else Return [("name", PyStr "report_office_issue");
                 ("arguments",
                  PyStr (Json.dumps [("issue_code", PyInt (decimal_value n 0));
                                     ("department", PyStr dept)]))].
Proof.
  intros Hn Hlen Hdept Hlast.
  unfold execute_query, execute_query_with, FUNCTION_RULES.
  change (scan [?a; ?b; ?c; ?e; ?f] ?s) with (scan ([a; b; c; e] ++ [f]) s).
  unfold REPORT_OFFICE_ISSUE at 1.
  rewrite scan_first_match with (groups := [Some n; Some dept]);
    [| skip_rules | now apply report_office_issue_match].
  unfold on_match, fill_arguments, nth_error.
  rewrite call_int_digits by assumption.
  now destruct (4300 <? String.length n)%nat.
Qed.

Lemma office_issue_answer_witness :
  execute_query
    (Some ("Report office issue " ++ replicate 4301 "9" ++ " for the "
             ++ "Facilities" ++ " department." ++ EmptyString))
  = if (4300 <? String.length (replicate 4301 "9"))%nat
    then HTTPException 400 "Parameter type mismatch"
    else Return [("name", PyStr "report_office_issue");
                 ("arguments",
                  PyStr (Json.dumps
                           [("issue_code",
                             PyInt (decimal_value (replicate 4301 "9") 0));
                            ("department", PyStr "Facilities")]))].
Proof.
  apply (office_issue_answer (replicate 4301 "9") "Facilities" EmptyString).
  - vm_compute. reflexivity.
  - vm_compute String.length. lia.
  - reflexivity.
  - reflexivity.
Defined.

(** ** The characters of the serialised mapping *)

Lemma all_printable_append a b :
  all_printable (a ++ b) = all_printable a && all_printable b.
Proof.
  induction a as [|x a IH]; simpl; [reflexivity|].
  now rewrite IH, andb_assoc.
Qed.

Lemma escape_char_printable c : all_printable (Json.escape_char c) = true.
Proof. destruct c as [[] [] [] [] [] [] [] []]; reflexivity. Qed.

Lemma escape_printable s : all_printable (Json.escape s) = true.
Proof.
  induction s as [|c s IH]; simpl; [reflexivity|].
  now rewrite all_printable_append, escape_char_printable, IH.
Qed.

Lemma encode_string_printable s : all_printable (Json.encode_string s) = true.
Proof.
  unfold Json.encode_string. simpl.
  now rewrite all_printable_append, escape_printable.
Qed.

Lemma string_of_uint_printable u :
  all_printable (NilEmpty.string_of_uint u) = true.
Proof. induction u; simpl; trivial. Qed.

Lemma encode_int_printable n : all_printable (Json.encode_int n) = true.
Proof.
  unfold Json.encode_int.
  destruct (Z.to_int n) as [u|u]; simpl;
    destruct u; simpl; trivial; apply string_of_uint_printable.
Qed.

Lemma encode_item_printable kv : all_printable (Json.encode_item kv) = true.
Proof.
  unfold Json.encode_item.
  rewrite !all_printable_append, encode_string_printable. simpl.
  destruct (snd kv); simpl;
    [apply encode_int_printable | apply encode_string_printable].
Qed.

Lemma join_printable l :
  all_printable (Json.join ", " (map Json.encode_item l)) = true.
Proof.
  induction l as [|kv l IH]; [reflexivity|].
  cbn [map Json.join]. destruct (map Json.encode_item l) eqn:E.
  - apply encode_item_printable.
  - rewrite !all_printable_append, encode_item_printable, IH. reflexivity.
Qed.

Lemma dumps_printable d : all_printable (Json.dumps d) = true.
Proof.
  unfold Json.dumps. simpl.
  now rewrite all_printable_append, join_printable.
Qed.

(** X21: whatever characters the query holds, the "arguments" string of a
    successful answer is made of printable ASCII characters only: control
    characters and the characters above 126 that a capture brings are
    written as escapes. *)
Theorem arguments_are_printable_ascii
        (rules : list rule) (q : string) (body : dict) :
  execute_query_with rules (Some q) = Return body ->
  exists text, getitem body "arguments" = Some (PyStr text)
               /\ all_printable text = true.
Proof.
  simpl. intros H.
  destruct (scan_inv rules q)
    as [[H404 _] | (pre & post & p & f & ns & ts & g & _ & _ & _ & Hs)];
    [congruence|].
  rewrite Hs in H. unfold on_match in H.
  destruct (fill_arguments 0 ns ts g []) as [d|[| |]]; try discriminate.
  injection H as <-. exists (Json.dumps d).
  split; [reflexivity | apply dumps_printable].
Qed.

Lemma arguments_are_printable_ascii_witness :
  exists text,
    getitem
      [("name", PyStr "schedule_meeting");
       ("arguments",
        PyStr (Json.dumps
                 [("date", PyStr "2025-02-15"); ("time", PyStr "14:00");
                  ("meeting_room",
                   PyStr (String "009" (String "233" "tage")))]))]
      "arguments"
    = Some (PyStr text)
    /\ all_printable text = true.
Proof.
  apply (arguments_are_printable_ascii
           FUNCTION_RULES
           ("Schedule a meeting on 2025-02-15 at 14:00 in "
              ++ String "009" (String "233" "tage."))).
  reflexivity.
Defined.

(** ** The only mismatch of the five rules *)

(** X23: with the five rules the answer is 400 "Parameter type mismatch"
    exactly when the rule that matches the query has, at a position of
    type [int], a capture of more than 4300 digits. *)
Theorem mismatch_iff_long_number (q : string) :
  execute_query (Some q) = HTTPException 400 "Parameter type mismatch"
  <-> exists r groups i v,
      In r FUNCTION_RULES
      /\ pattern_match (rule_pattern r) q = Some groups
      /\ nth_error (rule_arg_types r) i = Some py_int
      /\ nth_error groups i = Some (Some v)
      /\ 4300 < String.length v.
Proof.
  unfold execute_query, execute_query_with. split.
  - intros H.
    destruct (scan_inv FUNCTION_RULES q)
      as [[H404 _] | (pre & post & p & f & ns & ts & g & E & _ & Hm & Hs)];
      [congruence|].
    assert (Hr : In (p, f, ns, ts) FUNCTION_RULES).
    { rewrite E. apply in_or_app. right. now left. }
    destruct (default_rules_captures _ q g Hr Hm) as (Hg & Ht & _ & Hnone).
    unfold rule_arg_names, rule_arg_types in Hg, Ht. simpl in Hg, Ht.
    rewrite Hs in H. unfold on_match in H.
    destruct (fill_arguments 0 ns ts g []) as [d|e] eqn:Hfill;
      [discriminate|].
    apply fill_arguments_inr in Hfill as (j & Hj & [Hn|[Hn|Hn]]); simpl in Hn.
    + apply nth_error_None in Hn. lia.
    + apply nth_error_None in Hn. lia.
    + destruct Hn as (ty & [v|] & e' & Hty & Hv & Hc);
        [|now destruct (Hnone j)].
      destruct ty; [|discriminate].
      exists (p, f, ns, ts), g, j, v.
      split; [exact Hr|]. split; [exact Hm|]. split; [exact Hty|].
      split; [exact Hv|].
      rewrite (integer_capture_call _ q g j v Hr Hm Hty Hv) in Hc.
      destruct (Nat.ltb_spec 4300 (String.length v)); [assumption|discriminate].
  - intros ([[[p f] ns] ts] & g & i & v & Hr & Hm & Hty & Hv & Hlong).
    unfold rule_pattern, rule_arg_types in Hm, Hty. simpl in Hm, Hty.
    rewrite scan_unique with (pattern := p) (func_name := f) (arg_names := ns)
                             (arg_types := ts) (groups := g);
      [| intros r1 r2 g1 g2; apply matching_rules_coincide | exact Hr | exact Hm].
    destruct (default_rules_captures _ q g Hr Hm) as (_ & Ht & _ & Hnone).
    unfold rule_arg_names, rule_arg_types in Ht. simpl in Ht.
    destruct (fill_arguments_raises ns ts g) as [e He].
    { right. right. exists i, py_int, (Some v), ValueError.
      split; [|split; [exact Hty|split; [exact Hv|]]].
      - rewrite <- Ht. apply nth_error_Some. congruence.
      - rewrite (integer_capture_call (p, f, ns, ts) q g i v Hr Hm Hty Hv).
        now destruct (Nat.ltb_spec 4300 (String.length v)); [|lia]. }
    apply on_match_raises with (e := e); [exact He|].
    intros ->. apply fill_arguments_type_error in He as (j & _ & _ & Hj).
    now destruct (Hnone (0 + j)).
Qed.

(** ** Patterns without special characters *)

Lemma lex_plain w :
  all_plain w = true ->
  Re.lex w Re.Normal
  = Some (map (fun c => Re.TClass (CChar c)) (list_ascii_of_string w)).
Proof.
  induction w as [|c w IH]; [reflexivity|].
  cbn [all_plain]. intros H. apply andb_prop in H as [Hc Hw].
  cbn [Re.lex list_ascii_of_string map]. rewrite (IH Hw).
  unfold is_plain in Hc. apply negb_true_iff in Hc.
  cbn [existsb] in Hc.
  repeat (apply orb_false_elim in Hc as [?E Hc]; rewrite ?E).
  unfold Re.is_special. cbn [existsb].
  repeat match goal with H : Ascii.eqb c _ = false |- _ => rewrite H; clear H end.
  reflexivity.
Qed.

Lemma parse_plain l :
  Re.parse (map (fun c => Re.TClass (CChar c)) l) None
  = Some (map (fun c => Plain (One (CChar c))) l).
Proof.
  induction l as [|c l IH]; [reflexivity|].
  cbn [map]. destruct l as [|c' l]; [reflexivity|].
  cbn [map] in *. cbn [Re.parse]. cbn [Re.parse] in IH. now rewrite IH.
Qed.

Lemma lit_map w :
  lit w = map (fun c => Plain (One (CChar c))) (list_ascii_of_string w).
Proof. induction w as [|c w IH]; simpl; [reflexivity | now rewrite IH]. Qed.

(** X24: a pattern text without special characters compiles, and the compiled
    pattern matches exactly the queries that start with this text, with no
    capture. *)
Theorem plain_pattern_matches_its_text (w q : string) :
  all_plain w = true ->
  exists p, Re.compile w = Some p
            /\ pattern_match p q
               = if starts_with w q then Some [] else None.
Proof.
  intros Hw. exists (lit w). split.
  - unfold Re.compile. now rewrite lex_plain, parse_plain, lit_map.
  - unfold pattern_match. rewrite <- (app_nil_r (lit w)).
    now rewrite match_nodes_lit.
Qed.

Lemma plain_pattern_matches_its_text_witness :
  exists p, Re.compile "Make me" = Some p
            /\ pattern_match p "Make me a sandwich."
               = if starts_with "Make me" "Make me a sandwich."
                 then Some [] else None.
Proof.
  apply (plain_pattern_matches_its_text "Make me" "Make me a sandwich.").
  reflexivity.
Defined.
